(** * tablr: a shallow embedding of [tablr.py] and the properties of its
    table renderer, parser, column projection and query step.

    The program reads a JSON or CSV document, optionally replaces the column
    list, optionally runs one SQL query against an in-memory SQLite table and
    prints an aligned text table.

    Python values are modelled by the inductive type [pyval]; text is a
    [string] whose characters stand for code points below 256; Python
    integers are [Z]. Exceptions are values of [exn]; code that can raise
    returns a [result]. The interpreter's library calls the program relies on
    ([json.loads], [csv.reader], [sqlite3], reading the source) are the
    fields of a [host] record. *)

From Stdlib Require Import ZArith Lia Ascii String DecimalString.
From stdpp Require Import base gmap sets list strings sorting.

#[local] Set Warnings "-clear-no-such-hyp".

Local Open Scope string_scope.
Local Open Scope Z_scope.
Local Open Scope list_scope.

(** ** Python data *)

Module Py.

(** The exception classes that occur; all of them derive from [Exception]. *)
Inductive exn : Set :=
| TypeError
| AttributeError
| ValueError
| IndexError
| KeyError
| JSONDecodeError
| OSError
| CsvError
| SqliteError.

Inductive result (A : Type) : Type :=
| Return (x : A)
| Raise (e : exn).
Global Arguments Return {A} x.
Global Arguments Raise {A} e.

Global Instance result_ret : MRet result := λ A x, Return x.
Global Instance result_bind : MBind result := λ A B f m,
  match m with
  | Return x => f x
  | Raise e => Raise e
  end.

(** [try: body except Exception: handler]. *)
Definition try_except {A} (body : result A) (handler : exn → result A) : result A :=
  match body with
  | Return x => Return x
  | Raise e => handler e
  end.

(** A float is carried with the text [str()] gives for it: the program never
    computes with floats, it only prints them. Dictionaries are insertion
    ordered and keyed by strings. *)
#[warnings="-register-all"]
Inductive pyval : Type :=
| PyNone
| PyBool (b : bool)
| PyInt (n : Z)
| PyFloat (text : string)
| PyStr (s : string)
| PyBytes (b : string)
| PyList (items : list pyval)
| PyDict (items : list (string * pyval)).

(** *** Strings *)

Abbreviation ascii := Stdlib.Strings.Ascii.ascii.
Abbreviation char_eqb := Stdlib.Strings.Ascii.eqb.

(** [len(s)]. *)
Definition len (s : string) : Z := Z.of_nat (String.length s).

Fixpoint str_take (n : nat) (s : string) : string :=
  match n, s with
  | S n', String c s' => String c (str_take n' s')
  | _, _ => ""
  end.

(** [s[:n]]: a negative bound counts from the end. *)
Definition slice_to (s : string) (n : Z) : string :=
  if n <? 0 then str_take (Z.to_nat (len s + n)) s
  else str_take (Z.to_nat n) s.

Fixpoint str_repeat (c : ascii) (n : nat) : string :=
  match n with
  | O => ""
  | S n' => String c (str_repeat c n')
  end.

(** [c * n] for a one-character string [c]; empty when [n <= 0]. *)
Definition str_mul (c : ascii) (n : Z) : string := str_repeat c (Z.to_nat n).

Definition spaces (n : nat) : string := str_repeat " "%char n.

(** [sep.join(parts)]. *)
Fixpoint join (sep : string) (parts : list string) : string :=
  match parts with
  | [] => ""
  | [x] => x
  | x :: rest => x +:+ sep +:+ join sep rest
  end.

(** [s.replace(a, b)] for one-character [a] and [b]. *)
Fixpoint replace_char (a b : ascii) (s : string) : string :=
  match s with
  | "" => ""
  | String c s' => String (if char_eqb c a then b else c) (replace_char a b s')
  end.

(** [s.replace(a, '')] for a one-character [a]. *)
Fixpoint remove_char (a : ascii) (s : string) : string :=
  match s with
  | "" => ""
  | String c s' =>
      if char_eqb c a then remove_char a s' else String c (remove_char a s')
  end.

Fixpoint contains_char (a : ascii) (s : string) : bool :=
  match s with
  | "" => false
  | String c s' => char_eqb c a || contains_char a s'
  end.

Definition chars (s : string) : list string :=
  (λ c, String c "") <$> list_ascii_of_string s.

(** *** [str()] and [repr()] *)

Definition str_of_int (n : Z) : string := NilZero.string_of_int (Z.to_int n).

Definition hex_digit (n : N) : ascii :=
  match n with
  | 0 => "0" | 1 => "1" | 2 => "2" | 3 => "3" | 4 => "4" | 5 => "5"
  | 6 => "6" | 7 => "7" | 8 => "8" | 9 => "9" | 10 => "a" | 11 => "b"
  | 12 => "c" | 13 => "d" | 14 => "e" | _ => "f"
  end%N%char.

Definition hex_escape (c : ascii) : string :=
  let n := N_of_ascii c in
  String "\" (String "x" (String (hex_digit (n / 16)) (String (hex_digit (n mod 16)) ""))).

Definition quote_mark : ascii := "034"%char.
Definition apostrophe : ascii := "'"%char.

(** The quote [repr] wraps a text in: an apostrophe, unless the text holds
    one and no double quote. *)
Definition repr_quote (s : string) : ascii :=
  if contains_char apostrophe s && negb (contains_char quote_mark s)
  then quote_mark else apostrophe.

(** Code points below 256 that [str.isprintable] rejects. *)
Definition unprintable (c : ascii) : bool :=
  let n := N_of_ascii c in
  ((n <? 32) || ((127 <=? n) && (n <=? 160)) || (n =? 173))%N.

Definition repr_char (bytes : bool) (q c : ascii) : string :=
  if char_eqb c q || char_eqb c "\"%char then String "\" (String c "")
  else if char_eqb c "009"%char then "\t"
  else if char_eqb c "010"%char then "\n"
  else if char_eqb c "013"%char then "\r"
  else if (if bytes then (N_of_ascii c <? 32)%N || (127 <=? N_of_ascii c)%N
           else unprintable c)
  then hex_escape c
  else String c "".

Fixpoint repr_body (bytes : bool) (q : ascii) (s : string) : string :=
  match s with
  | "" => ""
  | String c s' => repr_char bytes q c +:+ repr_body bytes q s'
  end.

Definition repr_str (s : string) : string :=
  let q := repr_quote s in
  String q (repr_body false q s) +:+ String q "".

Definition repr_bytes (b : string) : string :=
  let q := repr_quote b in
  String "b" (String q (repr_body true q b)) +:+ String q "".

Fixpoint repr (v : pyval) : string :=
  match v with
  | PyNone => "None"
  | PyBool true => "True"
  | PyBool false => "False"
  | PyInt n => str_of_int n
  | PyFloat text => text
  | PyStr s => repr_str s
  | PyBytes b => repr_bytes b
  | PyList items => "[" +:+ join ", " (repr <$> items) +:+ "]"
  | PyDict items =>
      "{" +:+ join ", " ((λ kv, repr_str kv.1 +:+ ": " +:+ repr kv.2) <$> items) +:+ "}"
  end.

(** [str(v)]. *)
Definition str (v : pyval) : string :=
  match v with
  | PyStr s => s
  | _ => repr v
  end.

End Py.
Import Py.

(** ** Insertion-ordered dictionaries

    A Python [dict] (and [OrderedDict]) keeps its keys in the order of their
    first insertion; assigning to a key that is present replaces the value in
    place. *)

Module Dict.
Section dict.
Context {V : Type}.

Fixpoint get (d : list (string * V)) (k : string) : option V :=
  match d with
  | [] => None
  | (k', v) :: d' => if decide (k = k') then Some v else get d' k
  end.

(** [d.get(k, fallback)]. *)
Definition get_or (d : list (string * V)) (k : string) (fallback : V) : V :=
  match get d k with
  | Some v => v
  | None => fallback
  end.

(** [d[k] = v]. *)
Fixpoint set (d : list (string * V)) (k : string) (v : V) : list (string * V) :=
  match d with
  | [] => [(k, v)]
  | (k', v') :: d' =>
      if decide (k = k') then (k', v) :: d' else (k', v') :: set d' k v
  end.

(** [dict(pairs)]. *)
Definition from_pairs (pairs : list (string * V)) : list (string * V) :=
  fold_left (λ d kv, set d kv.1 kv.2) pairs [].

Definition keys (d : list (string * V)) : list string := d.*1.
Definition values (d : list (string * V)) : list V := d.*2.

(** [d[k]], which raises [KeyError] for a missing key. *)
Definition item (d : list (string * V)) (k : string) : result V :=
  match get d k with
  | Some v => Return v
  | None => Raise KeyError
  end.
End dict.
End Dict.

(** A row of the table: a dictionary from column names to values. *)
Abbreviation row := (list (string * pyval)).

(** ** Format strings

    The templates [print_table] builds have the shape
    [sep.join(['{:<w1}', ..., '{:<wn}'])]. They are kept in that shape: the
    separator and one replacement field per column. A separator is taken to
    hold no brace, as the default [' | '] of the only call does. *)

Inductive align : Set := AlignLeft | AlignCenter.

Record format_field : Set := FormatField { ff_align : align; ff_width : Z }.

Record template : Set := Template { t_sep : string; t_fields : list format_field }.

Definition plain_sep (sep : string) : bool :=
  negb (contains_char "{" sep) && negb (contains_char "}" sep).

Definition align_mark (a : align) : string :=
  match a with AlignLeft => "<" | AlignCenter => "^" end.

(** The text of a template, as Python holds it. *)
Definition template_text (t : template) : string :=
  join (t_sep t)
    ((λ f, "{:" +:+ align_mark (ff_align f) +:+ str_of_int (ff_width f) +:+ "}")
       <$> t_fields t).

(** [template.replace('<', '^')]: every left-justify mark becomes a centre
    mark, and so does every ['<'] of the separator. *)
Definition template_replace (t : template) : template :=
  {| t_sep := replace_char "<" "^" (t_sep t);
     t_fields := (λ f, {| ff_align := AlignCenter; ff_width := ff_width f |}) <$> t_fields t |}.

(** Padding with spaces to [width] characters; a longer text is kept whole.
    Centring puts the odd space on the right. *)
Definition pad (a : align) (width : nat) (s : string) : string :=
  let fill := (width - String.length s)%nat in
  match a with
  | AlignLeft => s +:+ spaces fill
  | AlignCenter => spaces (fill / 2) +:+ s +:+ spaces (fill - fill / 2)
  end.

(** [format(s, '<w')] and [format(s, '^w')] for a text [s]: a negative [w]
    is not a width and the specifier is rejected. *)
Definition format_value (f : format_field) (s : string) : result string :=
  if ff_width f <? 0 then Raise ValueError
  else Return (pad (ff_align f) (Z.to_nat (ff_width f)) s).

Fixpoint format_fields (fs : list format_field) (args : list string)
  : result (list string) :=
  match fs with
  | [] => Return []
  | f :: fs' =>
      match args with
      | [] => Raise IndexError
      | a :: args' =>
          cell ← format_value f a;
          cells ← format_fields fs' args';
          mret (cell :: cells)
      end
  end.

(** [template.format] applied to the arguments. *)
Definition format (t : template) (args : list string) : result string :=
  cells ← format_fields (t_fields t) args;
  mret (join (t_sep t) cells).

(** ** Effects

    The program writes lines to standard output and opens one SQLite
    connection. Both are kept in [world]; a computation maps a world to the
    world it leaves and either a value or the exception it raised. *)

Inductive sql_call : Type :=
| Execute (statement : string)
| ExecuteMany (statement : string) (params : list (list pyval)).

Inductive db_event : Type :=
| Connect
| Call (c : sql_call)
| Commit
| Close.

Record world : Type := World { stdout : list string; db_log : list db_event }.

Record M (A : Type) : Type := Run { run : world → world * result A }.
Global Arguments Run {A} _.
Global Arguments run {A} _ _.

Global Instance M_ret : MRet M := λ A x, Run (λ w, (w, Return x)).
Global Instance M_bind : MBind M := λ A B f m,
  Run (λ w, match run m w with
            | (w', Return x) => run (f x) w'
            | (w', Raise e) => (w', Raise e)
            end).

Definition lift {A} (r : result A) : M A := Run (λ w, (w, r)).

(** [print(line)]. The stream is taken to accept the line: an error of the
    stream itself (a closed pipe, a character its encoding lacks) is not
    modelled, so a statement about a run holds of runs whose writes
    succeed. *)
Definition print (line : string) : M unit :=
  Run (λ w, ({| stdout := stdout w ++ [line]; db_log := db_log w |}, Return ())).

Definition log_db (e : db_event) : M unit :=
  Run (λ w, ({| stdout := stdout w; db_log := db_log w ++ [e] |}, Return ())).

(** [for x in xs: body(x)]. *)
Fixpoint for_each {A} (xs : list A) (body : A → M unit) : M unit :=
  match xs with
  | [] => mret ()
  | x :: xs' => body x;; for_each xs' body
  end.

(** [[f(x) for x in xs]] where [f] may raise. *)
Fixpoint comprehension {A B} (f : A → result B) (xs : list A) : result (list B) :=
  match xs with
  | [] => Return []
  | x :: xs' => y ← f x; ys ← comprehension f xs'; mret (y :: ys)
  end.

(** ** The renderer *)

Definition _extract_value (source : row) (key : string) (max_size : Z)
    (default : pyval) : string :=
  let value := Dict.get_or source key default in
  let value := match value with PyNone => default | _ => value end in
  let value := match value with PyStr s => s | _ => str value end in
  slice_to value max_size.

(** The three loops that fill [col_sizes]. *)
Definition col_sizes_init (fields : list (string * string)) : list (string * Z) :=
  Dict.from_pairs ((λ '(field, label), (field, len (str (PyStr label)))) <$> fields).

Definition col_sizes_entry (fields : list (string * string))
    (col_sizes : list (string * Z)) (entry : row) : list (string * Z) :=
  fold_left
    (λ col_sizes field,
       let current_max := Dict.get_or col_sizes field 0 in
       Dict.set col_sizes field
         (Z.max current_max (len (str (Dict.get_or entry field (PyStr ""))))))
    (Dict.keys fields) col_sizes.

Definition col_sizes_clip (max_cols : Z) (col_sizes : list (string * Z))
  : list (string * Z) :=
  fold_left (λ cs '(field, size), Dict.set cs field (Z.min size max_cols))
    col_sizes col_sizes.

Definition col_sizes_of (entries : list row) (fields : list (string * string))
    (max_cols : Z) : list (string * Z) :=
  col_sizes_clip max_cols
    (fold_left (col_sizes_entry fields) entries (col_sizes_init fields)).

(** [sum(xs)]. *)
Definition sum (xs : list Z) : Z := fold_left Z.add xs 0.

Definition table_width (fields : list (string * string))
    (col_sizes : list (string * Z)) (sep : string) : Z :=
  let number_of_seps := Z.of_nat (length fields) - 1 in
  sum (Dict.values col_sizes) + number_of_seps * len sep.

Definition print_table (entries : list row) (fields : list (string * string))
    (max_cols : Z) (sep : string) : M unit :=
  let fields := Dict.from_pairs fields in
  let col_sizes := col_sizes_of entries fields max_cols in
  let width := table_width fields col_sizes sep in
  value_formats ←
    lift (comprehension
            (λ field, size ← Dict.item col_sizes field; mret (FormatField AlignLeft size))
            (Dict.keys fields));
  let template := Template sep value_formats in
  let truncated_headers := (λ h, slice_to h max_cols) <$> Dict.values fields in
  header ← lift (format (template_replace template) truncated_headers);
  print header;;
  print (str_mul "-" width);;
  for_each entries (λ entry,
    let values :=
      (λ field, _extract_value entry field max_cols (PyStr "")) <$> Dict.keys fields in
    line ← lift (format template values);
    print line).

(** ** The interpreter's libraries

    What the program asks of the Python libraries, as functions of their
    arguments: the text read from standard input or from a file,
    [json.loads], the records [csv.reader] yields for a text under the
    program's dialect, and SQLite, which answers a call given everything that
    happened on the connection before. *)

Record cursor_result : Type :=
  CursorResult { description : option (list string); fetched : list (list pyval) }.

Record host : Type := Host {
  stdin_read : result string;
  file_read : string → result string;
  json_loads : string → result pyval;
  csv_reader : string → result (list (list string));
  sqlite_run : list db_event → sql_call → result cursor_result
}.

(** ** The parser *)

(** [for x in v]: the items a loop over [v] visits. *)
Definition iterate (v : pyval) : result (list pyval) :=
  match v with
  | PyList items => Return items
  | PyDict items => Return (PyStr <$> Dict.keys items)
  | PyStr s => Return (PyStr <$> chars s)
  | PyBytes b => Return ((λ c, PyInt (Z.of_N (N_of_ascii c))) <$> list_ascii_of_string b)
  | PyNone | PyBool _ | PyInt _ | PyFloat _ => Raise TypeError
  end.

(** A value with a [keys()] method is a dictionary. *)
Definition as_row (v : pyval) : result row :=
  match v with
  | PyDict items => Return items
  | _ => Raise AttributeError
  end.

(** [for row in data: cols.update(row.keys())], returning with the set the
    rows the loop went through. *)
Fixpoint scan_rows (cols : gset string) (items : list pyval)
  : result (gset string * list row) :=
  match items with
  | [] => Return (cols, [])
  | item :: rest =>
      r ← as_row item;
      '(cols, rows) ← scan_rows (cols ∪ list_to_set (Dict.keys r)) rest;
      mret (cols, r :: rows)
  end.

(** The body of the [try] block. The data it leaves is iterated by every
    later stage exactly as the loop here iterates it, so it is returned as
    the rows that loop visited. [list(cols)] takes the names of the set in
    some order and [cols.sort()] orders them by code point; the sorted list
    is the same whatever algorithm sorts it, here a merge sort. *)
Definition json_attempt (h : host) (content : string) : result (list string * list row) :=
  data ← json_loads h content;
  items ← iterate data;
  '(cols, rows) ← scan_rows ∅ items;
  let cols := elements cols in
  let cols := merge_sort String.le cols in
  mret (cols, rows).

(** One row of [csv.DictReader]: the fields are paired with the header, a
    short record leaves the remaining names at [None]. The fields beyond the
    header go under the key [None], which is not a text and is never looked
    up; the row does not record it. *)
Definition DictReader_row (fieldnames record : list string) : row :=
  let d := Dict.from_pairs (zip fieldnames (PyStr <$> record)) in
  fold_left (λ d key, Dict.set d key PyNone) (drop (length record) fieldnames) d.

(** The body of the [except] block: [fieldnames] is the first record, if
    there is one, and the rows are the later records that are not empty. *)
Definition csv_attempt (h : host) (content : string)
  : result (option (list string) * list row) :=
  records ← csv_reader h content;
  match records with
  | [] => Return (None, [])
  | fieldnames :: rest =>
      Return (Some fieldnames,
              DictReader_row fieldnames <$> filter (λ r, r ≠ []) rest)
  end.

Definition read_source (h : host) (source : string) : result string :=
  if decide (source = "-") then stdin_read h else file_read h source.

Definition parse_data (h : host) (source : string)
  : result (option (list string) * list row) :=
  content ← read_source h source;
  try_except
    ('(cols, data) ← json_attempt h content; mret (Some cols, data))
    (λ _, csv_attempt h content).

(** ** The query step *)

(** [with manager: body]. When [__enter__] raises, the body does not run and
    [__exit__] is not called. Otherwise [__exit__] runs when the body ends,
    whether it returned or raised; [__exit__] here returns [None], so an
    exception of the body is raised again after it. *)
Definition with_statement {A B} (enter : M A) (exit : M unit) (body : A → M B) : M B :=
  Run (λ w,
    match run enter w with
    | (w1, Raise e) => (w1, Raise e)
    | (w1, Return a) =>
        match run (body a) w1 with
        | (w2, Return b) =>
            match run exit w2 with
            | (w3, Return _) => (w3, Return b)
            | (w3, Raise e) => (w3, Raise e)
            end
        | (w2, Raise e) =>
            match run exit w2 with
            | (w3, Return _) => (w3, Raise e)
            | (w3, Raise e') => (w3, Raise e')
            end
        end
    end).

(** [for x in columns] for a column list, which may be [None]. *)
Definition columns_iter (columns : option (list string)) : result (list string) :=
  match columns with
  | Some cs => Return cs
  | None => Raise TypeError
  end.

Module TempDB.

Definition TABLE_NAME : string := "data".

Definition nl : string := String "010"%char "".

(** [cursor.execute] and [cursor.executemany]: the call is put to SQLite
    with the history of the connection. *)
Definition call_db (h : host) (c : sql_call) : M cursor_result :=
  Run (λ w,
    ({| stdout := stdout w; db_log := db_log w ++ [Call c] |},
     sqlite_run h (db_log w) c)).

Definition row_factory (description : option (list string)) (r : list pyval)
  : result row :=
  description ← columns_iter description;
  fold_left
    (λ acc '(idx, col),
       d ← acc;
       match r !! idx with
       | Some v => Return (Dict.set d col v)
       | None => Raise IndexError
       end)
    (imap (λ idx col, (idx, col)) description)
    (Return []).

Definition _escape (v : string) : string :=
  String quote_mark (remove_char quote_mark v) +:+ String quote_mark "".

Definition create_table_statement (columns : list string) : string :=
  let field_definitions := (λ f, _escape f +:+ " TEXT") <$> columns in
  let field_list := join ", " field_definitions in
  nl +:+ "            CREATE TABLE " +:+ TABLE_NAME +:+ " (" +:+ nl +:+
  "                " +:+ field_list +:+ nl +:+
  "            );" +:+ nl +:+ "        ".

Definition _make_table (h : host) (columns : option (list string)) : M unit :=
  columns ← lift (columns_iter columns);
  call_db h (Execute (create_table_statement columns));;
  log_db Commit.

Definition insert_statement (columns : list string) : string :=
  let col_list := _escape <$> columns in
  let param_list := (λ _, "?") <$> columns in
  nl +:+ "            INSERT INTO " +:+ String quote_mark TABLE_NAME +:+
  String quote_mark " (" +:+ join ", " col_list +:+ ")" +:+ nl +:+
  "            VALUES (" +:+ nl +:+
  "                " +:+ join ", " param_list +:+ nl +:+
  "            )" +:+ nl +:+ "        ".

Definition _insert_data (h : host) (records : list row)
    (columns : option (list string)) : M unit :=
  columns ← lift (columns_iter columns);
  let flattened_rows :=
    (λ row, (λ c, Dict.get_or row c PyNone) <$> columns) <$> records in
  call_db h (ExecuteMany (insert_statement columns) flattened_rows);;
  log_db Commit.

Definition __enter__ (h : host) (records : list row)
    (columns : option (list string)) : M unit :=
  log_db Connect;;
  _make_table h columns;;
  _insert_data h records columns.

Definition __exit__ : M unit := log_db Close.

Definition query (h : host) (statement : string) : M (list string * list row) :=
  cur ← call_db h (Execute statement);
  result ← lift (comprehension (row_factory (description cur)) (fetched cur));
  cols ← lift (columns_iter (description cur));
  mret (cols, result).

End TempDB.

(** ** The command line *)

Record args : Type := Args {
  data_source : string;
  max_cols : Z;
  only_columns : option (list string);
  query : option string
}.

(** What [parse_args] gives when the command line has no argument. *)
Definition default_args : args :=
  {| data_source := "-"; max_cols := 100; only_columns := None; query := None |}.

(** [if args.only_columns: cols = args.only_columns]: [None] and the empty
    list are both false. *)
Definition select_columns (a : args) (cols : option (list string))
  : option (list string) :=
  match only_columns a with
  | Some (c :: cs) => Some (c :: cs)
  | Some [] | None => cols
  end.

(** [if args.query: ...]: the store is made of the rows and the columns, the
    query runs inside the [with] block and its result replaces both. [None]
    and the empty text are both false. *)
Definition query_step (h : host) (a : args) (cols : option (list string))
    (data : list row) : M (option (list string) * list row) :=
  match query a with
  | Some (String c q) =>
      with_statement (TempDB.__enter__ h data cols) TempDB.__exit__
        (λ _, '(cols, data) ← TempDB.query h (String c q); mret (Some cols, data))
  | Some "" | None => mret (cols, data)
  end.

(** [[(col, col) for col in cols]] and the call of [print_table], which
    takes the default separator. *)
Definition render (a : args) (cols : option (list string)) (data : list row) : M unit :=
  cols ← lift (columns_iter cols);
  print_table data ((λ col, (col, col)) <$> cols) (max_cols a) " | ".

Definition main (h : host) (a : args) : M unit :=
  '(cols, data) ← lift (parse_data h (data_source a));
  let cols := select_columns a cols in
  '(cols, data) ← query_step h a cols data;
  render a cols data.

(** ** The table in closed form

    What the specification says of a rendered table, written out: the width
    of a column, and the lines of the table cell by cell. [fields] is the
    ordered dictionary [print_table] makes of its argument. *)

(** The length of the text a row holds for a field, the empty text when the
    row has no such field. *)
Definition value_len (entry : row) (field : string) : Z :=
  len (str (Dict.get_or entry field (PyStr ""))).

(** The maximum over all rows of that length; zero when there is no row. *)
Definition widest (entries : list row) (field : string) : Z :=
  foldr Z.max 0 ((λ entry, value_len entry field) <$> entries).

Definition column_width (entries : list row) (max_cols : Z) (field label : string) : Z :=
  Z.min max_cols (Z.max (len label) (widest entries field)).

Definition column_widths (entries : list row) (max_cols : Z)
    (fields : list (string * string)) : list (string * Z) :=
  (λ '(field, label), (field, column_width entries max_cols field label)) <$> fields.

Definition header_cell (entries : list row) (max_cols : Z) (field label : string) : string :=
  pad AlignCenter (Z.to_nat (column_width entries max_cols field label))
    (slice_to label max_cols).

Definition data_cell (entries : list row) (max_cols : Z) (entry : row)
    (field label : string) : string :=
  pad AlignLeft (Z.to_nat (column_width entries max_cols field label))
    (_extract_value entry field max_cols (PyStr "")).

Definition header_line (entries : list row) (max_cols : Z) (sep : string)
    (fields : list (string * string)) : string :=
  join (replace_char "<" "^" sep)
    ((λ '(field, label), header_cell entries max_cols field label) <$> fields).

Definition rule_line (entries : list row) (max_cols : Z) (sep : string)
    (fields : list (string * string)) : string :=
  str_mul "-" (table_width fields (column_widths entries max_cols fields) sep).

Definition data_line (entries : list row) (max_cols : Z) (sep : string)
    (fields : list (string * string)) (entry : row) : string :=
  join sep ((λ '(field, label), data_cell entries max_cols entry field label) <$> fields).

Definition table_lines (entries : list row) (max_cols : Z) (sep : string)
    (fields : list (string * string)) : list string :=
  header_line entries max_cols sep fields
    :: rule_line entries max_cols sep fields
    :: (data_line entries max_cols sep fields <$> entries).

(** Writing [lines] after what is already on standard output. *)
Definition printed (w : world) (lines : list string) : world :=
  {| stdout := stdout w ++ lines; db_log := db_log w |}.

(** The text a cell shows before it is cut: the text of the value, and the
    empty text for a missing value and for [None]. *)
Definition cell_text (entry : row) (field : string) : string :=
  match Dict.get entry field with
  | None | Some PyNone => ""
  | Some v => str v
  end.

(** ** The columns of a JSON document, in the words of the specification

    The sorted, de-duplicated union of the keys of every object. *)
Definition sorted_key_union (rows : list row) : list string :=
  merge_sort String.le (remove_dups (mjoin (Dict.keys <$> rows))).

(** A sequence of key-value records: a list whose items are all
    dictionaries. *)
Definition is_dict (v : pyval) : bool :=
  match v with PyDict _ => true | _ => false end.

Definition is_records (v : pyval) : bool :=
  match v with
  | PyList items => forallb is_dict items
  | _ => false
  end.

(** The values a loop visits nothing of. *)
Definition is_empty_iterable (v : pyval) : bool :=
  match v with
  | PyList [] | PyDict [] | PyStr "" | PyBytes "" => true
  | _ => false
  end.

(** ** Example runs

    A host whose standard input holds [text]: [decoded] is what [json.loads]
    gives for that text and [records] what [csv.reader] yields for it. No
    file and no other text is asked for. *)
Definition host_of (text : string) (decoded : result pyval)
    (records : result (list (list string)))
    (sqlite : list db_event → sql_call → result cursor_result) : host :=
  {| stdin_read := Return text;
     file_read := λ _, Raise OSError;
     json_loads := λ s, if decide (s = text) then decoded else Raise JSONDecodeError;
     csv_reader := λ s, if decide (s = text) then records else Raise CsvError;
     sqlite_run := sqlite |}.

(** A text between double quotes. *)
Definition quoted (s : string) : string :=
  String quote_mark s +:+ String quote_mark "".

Definition no_sqlite : list db_event → sql_call → result cursor_result :=
  λ _ _, Raise SqliteError.

(** The document [[{"b":1,"a":2},{"c":3}]]. *)
Definition abc_text : string :=
  "[{" +:+ quoted "b" +:+ ":1," +:+ quoted "a" +:+ ":2},{" +:+ quoted "c" +:+ ":3}]".

Definition abc_rows : list row :=
  [[("b", PyInt 1); ("a", PyInt 2)]; [("c", PyInt 3)]].

Definition abc_host : host :=
  host_of abc_text (Return (PyList (PyDict <$> abc_rows)))
    (Return [["[{" +:+ quoted "b" +:+ ":1"; "a:2}"; "{" +:+ quoted "c" +:+ ":3}]"]])
    no_sqlite.

(** Empty standard input: [json.loads] rejects the empty text and
    [csv.reader] yields no record for it. *)
Definition empty_host : host :=
  host_of "" (Raise JSONDecodeError) (Return []) no_sqlite.

(** The rows [[{"x":"ab"},{"x":"abcdef"}]]. *)
Definition x_rows : list row := [[("x", PyStr "ab")]; [("x", PyStr "abcdef")]].

(** The document [[{"a":"1","b":"2"}]]. *)
Definition ab_text : string :=
  "[{" +:+ quoted "a" +:+ ":" +:+ quoted "1" +:+ "," +:+ quoted "b" +:+ ":"
  +:+ quoted "2" +:+ "}]".

Definition ab_host : host :=
  host_of ab_text (Return (PyList [PyDict [("a", PyStr "1"); ("b", PyStr "2")]]))
    (Return [["[{" +:+ quoted "a" +:+ ":" +:+ quoted "1"; "b:" +:+ quoted "2" +:+ "}]"]])
    no_sqlite.


(** The command line [-o] with no column name after it. *)
Definition only_nothing_args : args :=
  {| data_source := "-"; max_cols := 100; only_columns := Some []; query := None |}.

(** The document [{}]: a JSON object with no member, which [csv.reader]
    reads as one record of one field. *)
Definition braces_host : host :=
  host_of "{}" (Return (PyDict [])) (Return [["{}"]]) no_sqlite.

(** The document [[]] with the query [SELECT 1]. SQLite rejects the
    [CREATE TABLE] statement of a table without columns. *)
Definition sqlite_needs_a_column : list db_event → sql_call → result cursor_result :=
  λ _ call,
    match call with
    | Execute statement =>
        if decide (statement = TempDB.create_table_statement []) then Raise SqliteError
        else Return (CursorResult (Some ["1"]) [[PyInt 1]])
    | ExecuteMany _ _ => Return (CursorResult None [])
    end.

Definition no_rows_host : host :=
  host_of "[]" (Return (PyList [])) (Return [["[]"]]) sqlite_needs_a_column.

Definition select_1_args : args :=
  {| data_source := "-"; max_cols := 100; only_columns := None;
     query := Some "SELECT 1" |}.

(** A delimited document of three lines and a blank one,
    [name, age / Ann, 30 / (blank) / Bob], which is not JSON. Under the
    program's dialect the space after a comma is skipped and the blank line
    is an empty record. *)
Definition people_text : string :=
  "name, age" +:+ TempDB.nl +:+ "Ann, 30" +:+ TempDB.nl +:+ TempDB.nl
  +:+ "Bob" +:+ TempDB.nl.

Definition people_host : host :=
  host_of people_text (Raise JSONDecodeError)
    (Return [["name"; "age"]; ["Ann"; "30"]; []; ["Bob"]]) no_sqlite.

(** The document [[{"id":"1"},{"id":"2"}]] and a query that counts its
    rows; SQLite answers the query with one column [n] and one row. *)
Definition ids_text : string :=
  "[{" +:+ quoted "id" +:+ ":" +:+ quoted "1" +:+ "},{" +:+ quoted "id" +:+ ":"
  +:+ quoted "2" +:+ "}]".

Definition count_query : string := "SELECT count(id) AS n FROM data".

Definition count_sqlite : list db_event → sql_call → result cursor_result :=
  λ _ call,
    match call with
    | Execute statement =>
        if decide (statement = count_query)
        then Return (CursorResult (Some ["n"]) [[PyInt 2]])
        else Return (CursorResult None [])
    | ExecuteMany _ _ => Return (CursorResult None [])
    end.

Definition ids_host : host :=
  host_of ids_text
    (Return (PyList [PyDict [("id", PyStr "1")]; PyDict [("id", PyStr "2")]]))
    (Return [["[{" +:+ quoted "id" +:+ ":" +:+ quoted "1" +:+ "}";
              "{" +:+ quoted "id" +:+ ":" +:+ quoted "2" +:+ "}]"]])
    count_sqlite.

Definition count_args : args :=
  {| data_source := "-"; max_cols := 100; only_columns := None;
     query := Some count_query |}.

(** The same document with a statement that has no result set. *)
Definition delete_args : args :=
  {| data_source := "-"; max_cols := 100; only_columns := None;
     query := Some "DELETE FROM data" |}.

(** An SQLite that refuses the statement [SELEKT 1] and accepts every other
    statement, none of which has a result set. *)
Definition refusing_sqlite : list db_event → sql_call → result cursor_result :=
  λ _ call,
    match call with
    | Execute statement =>
        if decide (statement = "SELEKT 1") then Raise SqliteError
        else Return (CursorResult None [])
    | ExecuteMany _ _ => Return (CursorResult None [])
    end.

Definition refusing_host : host :=
  host_of ids_text
    (Return (PyList [PyDict [("id", PyStr "1")]; PyDict [("id", PyStr "2")]]))
    (Return [["[{" +:+ quoted "id" +:+ ":" +:+ quoted "1" +:+ "}";
              "{" +:+ quoted "id" +:+ ":" +:+ quoted "2" +:+ "}]"]])
    refusing_sqlite.

Definition refused_args : args :=
  {| data_source := "-"; max_cols := 100; only_columns := None;
     query := Some "SELEKT 1" |}.

(** The command line with the [--only-columns] option taken away. *)
Definition without_only_columns (a : args) : args :=
  {| data_source := data_source a; max_cols := max_cols a; only_columns := None;
     query := query a |}.

(** * Properties *)

(** ** Texts *)

Section strings.
Implicit Types (s t : string) (c : ascii) (n : nat).

Lemma app_cons c s t : String c s +:+ t = String c (s +:+ t).
Proof. reflexivity. Qed.

Lemma length_app s t : String.length (s +:+ t) = (String.length s + String.length t)%nat.
Proof. induction s as [|c s IH]; [done|]. rewrite app_cons. simpl. by rewrite IH. Qed.

Lemma length_str_repeat c n : String.length (str_repeat c n) = n.
Proof. induction n as [|n IH]; simpl; [done | by rewrite IH]. Qed.

Lemma length_spaces n : String.length (spaces n) = n.
Proof. apply length_str_repeat. Qed.

Lemma length_str_take n s : String.length (str_take n s) = (n `min` String.length s)%nat.
Proof.
  revert s; induction n as [|n IH]; intros [|c s]; simpl; try done.
  by rewrite IH.
Qed.

Lemma str_take_all n s : (String.length s ≤ n)%nat → str_take n s = s.
Proof.
  revert s; induction n as [|n IH]; intros [|c s]; simpl; try done; try lia.
  intros ?. rewrite IH; [done | lia].
Qed.

Lemma app_empty_r s : s +:+ "" = s.
Proof. induction s as [|c s IH]; [done|]. by rewrite app_cons, IH. Qed.

Lemma len_nonneg s : 0 ≤ len s.
Proof. unfold len. lia. Qed.

Lemma slice_to_empty m : slice_to "" m = "".
Proof. unfold slice_to. destruct (m <? 0); by destruct (Z.to_nat _). Qed.

Lemma len_slice_to s m : 0 ≤ m → len (slice_to s m) = Z.min m (len s).
Proof.
  intros Hm. unfold slice_to, len.
  destruct (Z.ltb_spec m 0); [lia|].
  rewrite length_str_take. lia.
Qed.

Lemma length_pad a n s :
  String.length (pad a n s) = (n `max` String.length s)%nat.
Proof.
  unfold pad. destruct a; rewrite !length_app, !length_spaces; [lia|].
  pose proof (Nat.Div0.div_le_upper_bound (n - String.length s) 2 (n - String.length s))%nat.
  pose proof (Nat.Div0.mul_div_le (n - String.length s) 2)%nat. lia.
Qed.

End strings.

(** ** Templates

    The text of a template and its shape agree on [replace]: writing ['^']
    for every ['<'] of the text gives the text of the template whose fields
    are centred and whose separator has ['^'] for ['<']. *)

Section templates.
Lemma replace_char_app a b s t :
  replace_char a b (s +:+ t) = replace_char a b s +:+ replace_char a b t.
Proof.
  induction s as [|c s IH]; [done|]. rewrite app_cons. simpl. by rewrite IH.
Qed.

Lemma replace_char_join a b sep (parts : list string) :
  replace_char a b (join sep parts)
  = join (replace_char a b sep) (replace_char a b <$> parts).
Proof.
  induction parts as [|x [|y parts] IH]; [done..|].
  change (join sep (x :: y :: parts)) with (x +:+ sep +:+ join sep (y :: parts)).
  rewrite !replace_char_app, IH. done.
Qed.

Lemma replace_lt_digits d :
  replace_char "<" "^" (NilEmpty.string_of_uint d) = NilEmpty.string_of_uint d.
Proof. induction d; simpl; by rewrite ?IHd. Qed.

Lemma replace_lt_int n : replace_char "<" "^" (str_of_int n) = str_of_int n.
Proof.
  unfold str_of_int, NilZero.string_of_int, NilZero.string_of_uint.
  destruct (Z.to_int n) as [d|d]; destruct d; simpl; by rewrite ?replace_lt_digits.
Qed.

Lemma template_replace_text t :
  replace_char "<" "^" (template_text t) = template_text (template_replace t).
Proof.
  unfold template_text, template_replace. simpl.
  rewrite replace_char_join, <- !list_fmap_compose. f_equal.
  apply list_fmap_ext. intros _ [al width] _. simpl.
  rewrite !replace_char_app, replace_lt_int. by destruct al.
Qed.

Example template_text_two_columns :
  template_text (Template " | " [FormatField AlignLeft 4; FormatField AlignLeft 12])
  = "{:<4} | {:<12}"
  ∧ template_text
      (template_replace
         (Template " | " [FormatField AlignLeft 4; FormatField AlignLeft 12]))
    = "{:^4} | {:^12}".
Proof. split; reflexivity. Qed.
End templates.

(** ** Dictionaries *)

Section dict_facts.
Context {V : Type}.
Implicit Types (d : list (string * V)) (k : string) (v : V).

Lemma get_set d k v k' :
  Dict.get (Dict.set d k v) k' = if decide (k' = k) then Some v else Dict.get d k'.
Proof.
  induction d as [|[k0 v0] d IH]; simpl.
  - by destruct (decide (k' = k)).
  - destruct (decide (k = k0)) as [->|Hne]; simpl.
    + by destruct (decide (k' = k0)).
    + destruct (decide (k' = k0)) as [->|?].
      * destruct (decide (k0 = k)); [congruence | done].
      * apply IH.
Qed.

Lemma get_None d k : Dict.get d k = None ↔ k ∉ Dict.keys d.
Proof.
  unfold Dict.keys. induction d as [|[k0 v0] d IH]; simpl.
  - split; [intros _; apply not_elem_of_nil | done].
  - rewrite not_elem_of_cons. destruct (decide (k = k0)) as [->|Hne].
    + split; [done | intros [? _]; done].
    + rewrite IH. split; [by split | by intros [_ ?]].
Qed.

Lemma get_elem_of d k v : NoDup (Dict.keys d) → (k, v) ∈ d → Dict.get d k = Some v.
Proof.
  unfold Dict.keys. induction d as [|[k0 v0] d IH]; simpl.
  - intros _ Hin. by apply elem_of_nil in Hin.
  - intros [Hk0 Hnd]%NoDup_cons [Heq|Hin]%elem_of_cons.
    + simplify_eq. by rewrite decide_True.
    + destruct (decide (k = k0)) as [->|?]; [|by apply IH].
      exfalso. apply Hk0. apply list_elem_of_fmap. by exists (k0, v).
Qed.

Lemma keys_set_in d k v : k ∈ Dict.keys d → Dict.keys (Dict.set d k v) = Dict.keys d.
Proof.
  unfold Dict.keys. induction d as [|[k0 v0] d IH]; simpl.
  - intros Hin. by apply elem_of_nil in Hin.
  - intros Hin. destruct (decide (k = k0)) as [->|Hne]; simpl; [done|].
    f_equal. apply IH. apply elem_of_cons in Hin as [?|?]; [congruence | done].
Qed.

Lemma set_fresh d k v : k ∉ Dict.keys d → Dict.set d k v = d ++ [(k, v)].
Proof.
  unfold Dict.keys. induction d as [|[k0 v0] d IH]; simpl; [done|].
  intros [? ?]%not_elem_of_cons. rewrite decide_False by done. by rewrite IH.
Qed.

Lemma fold_set_fresh (l acc : list (string * V)) :
  NoDup (Dict.keys (acc ++ l)) →
  fold_left (λ d kv, Dict.set d kv.1 kv.2) l acc = acc ++ l.
Proof.
  revert acc. induction l as [|[k v] l IH]; intros acc Hnd; simpl.
  - by rewrite app_nil_r.
  - rewrite set_fresh.
    + rewrite IH; rewrite <- app_assoc; done.
    + unfold Dict.keys in *. rewrite fmap_app in Hnd.
      apply NoDup_app in Hnd as (_ & Hdisj & _).
      intros Hin. apply (Hdisj _ Hin). simpl. apply elem_of_cons. by left.
Qed.

Lemma from_pairs_NoDup_id d : NoDup (Dict.keys d) → Dict.from_pairs d = d.
Proof. intros Hnd. unfold Dict.from_pairs. by rewrite fold_set_fresh. Qed.

Lemma keys_set_NoDup d k v : NoDup (Dict.keys d) → NoDup (Dict.keys (Dict.set d k v)).
Proof.
  intros Hnd. destruct (decide (k ∈ Dict.keys d)) as [Hin|Hn].
  - by rewrite keys_set_in.
  - rewrite set_fresh by done. unfold Dict.keys in *. rewrite fmap_app. simpl.
    apply NoDup_app. split_and!; [done | | apply NoDup_singleton].
    intros x Hx ->%list_elem_of_singleton. done.
Qed.

Lemma from_pairs_NoDup (l : list (string * V)) : NoDup (Dict.keys (Dict.from_pairs l)).
Proof.
  unfold Dict.from_pairs.
  assert (∀ acc, NoDup (Dict.keys acc) →
    NoDup (Dict.keys (fold_left (λ d kv, Dict.set d kv.1 kv.2) l acc))) as H.
  { induction l as [|[k v] l IH]; intros acc Hacc; simpl; [done|].
    apply IH. by apply keys_set_NoDup. }
  apply H. apply NoDup_nil_2.
Qed.

(** Two dictionaries with the same keys in the same order and the same
    lookups are equal. *)
Lemma dict_ext d1 d2 :
  Dict.keys d1 = Dict.keys d2 → NoDup (Dict.keys d1) →
  (∀ k, k ∈ Dict.keys d1 → Dict.get d1 k = Dict.get d2 k) → d1 = d2.
Proof.
  unfold Dict.keys. revert d2.
  induction d1 as [|[k1 v1] d1 IH]; intros [|[k2 v2] d2]; simpl; try done.
  intros [= -> Hkeys] [Hk Hnd]%NoDup_cons Hget.
  pose proof (Hget k2 ltac:(apply elem_of_cons; by left)) as H2.
  simpl in H2. rewrite !decide_True in H2 by done. injection H2 as ->.
  f_equal. apply IH; [done..|].
  intros k Hin. specialize (Hget k ltac:(apply elem_of_cons; by right)).
  simpl in Hget. destruct (decide (k = k2)) as [->|?]; [done | exact Hget].
Qed.
End dict_facts.

(** ** The column sizes *)

Section col_sizes.
Implicit Types (fields : list (string * string)) (cs : list (string * Z)).

Lemma widest_nonneg entries field : 0 ≤ widest entries field.
Proof. unfold widest. induction entries; csimpl; lia. Qed.

Lemma get_fmap_value {A B} (g : string → A → B) (d : list (string * A)) k :
  Dict.get ((λ '(f, x), (f, g f x)) <$> d) k = g k <$> Dict.get d k.
Proof.
  induction d as [|[k0 v0] d IH]; csimpl; [done|].
  destruct (decide (k = k0)) as [->|?]; [done | apply IH].
Qed.

Lemma keys_fmap_value {A B} (g : string → A → B) (d : list (string * A)) :
  Dict.keys ((λ '(f, x), (f, g f x)) <$> d) = Dict.keys d.
Proof.
  unfold Dict.keys. induction d as [|[k0 v0] d IH]; csimpl; [done | by rewrite IH].
Qed.

Lemma col_sizes_init_spec fields :
  NoDup (Dict.keys fields) →
  col_sizes_init fields = (λ '(field, label), (field, len label)) <$> fields.
Proof.
  intros Hnd. unfold col_sizes_init.
  rewrite from_pairs_NoDup_id.
  - apply list_fmap_ext. by intros _ [f l] _.
  - by rewrite (keys_fmap_value (λ _ label, len (str (PyStr label)))).
Qed.

(** One pass of the inner loop over a list [ks] of distinct fields. *)
Lemma inner_loop_spec (entry : row) (ks : list string) cs :
  NoDup ks → (∀ k, k ∈ ks → k ∈ Dict.keys cs) →
  let step := λ cs field,
    Dict.set cs field (Z.max (Dict.get_or cs field 0) (value_len entry field)) in
  Dict.keys (fold_left step ks cs) = Dict.keys cs ∧
  ∀ k, Dict.get (fold_left step ks cs) k =
       if decide (k ∈ ks) then Some (Z.max (Dict.get_or cs k 0) (value_len entry k))
       else Dict.get cs k.
Proof.
  intros Hnd Hin step. revert cs Hin.
  induction ks as [|k0 ks IH]; intros cs Hin; simpl.
  - done.
  - apply NoDup_cons in Hnd as [Hk0 Hnd].
    assert (k0 ∈ Dict.keys cs) as Hk0in by (apply Hin, elem_of_cons; by left).
    destruct (IH Hnd (step cs k0)) as [Hkeys Hget].
    { intros k Hk. unfold step. rewrite keys_set_in by done.
      apply Hin, elem_of_cons. by right. }
    split.
    { rewrite Hkeys. unfold step. by rewrite keys_set_in. }
    intros k. rewrite Hget. unfold step, Dict.get_or.
    rewrite !get_set.
    repeat case_decide; simplify_eq; try done; set_solver.
Qed.

Lemma col_sizes_entry_spec fields cs (entry : row) :
  NoDup (Dict.keys fields) → Dict.keys cs = Dict.keys fields →
  Dict.keys (col_sizes_entry fields cs entry) = Dict.keys fields ∧
  ∀ k, k ∈ Dict.keys fields →
    Dict.get (col_sizes_entry fields cs entry) k =
    Some (Z.max (Dict.get_or cs k 0) (value_len entry k)).
Proof.
  intros Hnd Hkeys.
  destruct (inner_loop_spec entry (Dict.keys fields) cs Hnd) as [H1 H2].
  { intros k. by rewrite Hkeys. }
  split; [by rewrite <- Hkeys|].
  intros k Hk. unfold col_sizes_entry, value_len in *. rewrite H2.
  by rewrite decide_True.
Qed.

(** The loop over the entries: every field ends at the largest length seen,
    starting from the size it had. *)
Lemma outer_loop_spec fields (entries : list row) cs :
  NoDup (Dict.keys fields) → Dict.keys cs = Dict.keys fields →
  Dict.keys (fold_left (col_sizes_entry fields) entries cs) = Dict.keys fields ∧
  ∀ k size, k ∈ Dict.keys fields → Dict.get cs k = Some size → 0 ≤ size →
    Dict.get (fold_left (col_sizes_entry fields) entries cs) k =
    Some (Z.max size (widest entries k)).
Proof.
  intros Hnd. revert cs. induction entries as [|entry entries IH]; intros cs Hkeys; simpl.
  - split; [done|]. intros k size _ -> Hsize. f_equal. unfold widest. simpl. lia.
  - destruct (col_sizes_entry_spec fields cs entry Hnd Hkeys) as [Hk1 Hg1].
    destruct (IH _ Hk1) as [Hk2 Hg2].
    split; [done|]. intros k size Hk Hget Hsize.
    rewrite (Hg2 k (Z.max size (value_len entry k))).
    + f_equal. unfold widest. csimpl. lia.
    + done.
    + rewrite Hg1 by done. unfold Dict.get_or. by rewrite Hget.
    + lia.
Qed.

(** The last loop, which clips every size, run over any part [items] of
    the dictionary that has distinct keys. *)
Lemma clip_loop_spec (max_cols : Z) (items : list (string * Z)) cs :
  NoDup (Dict.keys items) → (∀ k, k ∈ Dict.keys items → k ∈ Dict.keys cs) →
  let step := λ cs (kv : string * Z),
    let '(field, size) := kv in Dict.set cs field (Z.min size max_cols) in
  Dict.keys (fold_left step items cs) = Dict.keys cs ∧
  ∀ k, Dict.get (fold_left step items cs) k =
       match Dict.get items k with
       | Some size => Some (Z.min size max_cols)
       | None => Dict.get cs k
       end.
Proof.
  intros Hnd Hin step. revert cs Hin.
  induction items as [|[k0 s0] items IH]; intros cs Hin; simpl; [done|].
  unfold Dict.keys in Hnd. simpl in Hnd. apply NoDup_cons in Hnd as [Hk0 Hnd].
  assert (k0 ∈ Dict.keys cs) as Hk0in.
  { apply Hin. unfold Dict.keys. simpl. apply elem_of_cons. by left. }
  destruct (IH Hnd (Dict.set cs k0 (Z.min s0 max_cols))) as [Hkeys Hget].
  { intros k Hk. rewrite keys_set_in by done. apply Hin.
    unfold Dict.keys. simpl. apply elem_of_cons. by right. }
  split; [by rewrite Hkeys, keys_set_in|].
  intros k. rewrite Hget, get_set.
  destruct (decide (k = k0)) as [->|Hne]; [|done].
  by rewrite (proj2 (get_None items k0) Hk0).
Qed.

(** The sizes the three loops leave are the widths of the specification. *)
Lemma col_sizes_of_spec (entries : list row) fields max_cols :
  NoDup (Dict.keys fields) →
  col_sizes_of entries fields max_cols = column_widths entries max_cols fields.
Proof.
  intros Hnd. unfold col_sizes_of, col_sizes_clip.
  set (cs := fold_left (col_sizes_entry fields) entries (col_sizes_init fields)).
  assert (Dict.keys (col_sizes_init fields) = Dict.keys fields) as Hk0.
  { rewrite col_sizes_init_spec by done. apply (keys_fmap_value (λ _ label, len label)). }
  destruct (outer_loop_spec fields entries (col_sizes_init fields) Hnd Hk0) as [Hk1 Hg1].
  fold cs in Hk1, Hg1.
  destruct (clip_loop_spec max_cols cs cs) as [Hk2 Hg2];
    [by rewrite Hk1 | done |].
  apply dict_ext.
  - rewrite Hk2, Hk1. symmetry.
    apply (keys_fmap_value (λ f label, column_width entries max_cols f label)).
  - by rewrite Hk2, Hk1.
  - intros k Hk. rewrite Hk2, Hk1 in Hk. rewrite Hg2.
    unfold column_widths.
    rewrite (get_fmap_value (λ f label, column_width entries max_cols f label)).
    destruct (Dict.get fields k) as [label|] eqn:Hlabel.
    + rewrite (Hg1 k (len label)); [| done | | apply len_nonneg].
      * simpl. unfold column_width. f_equal. lia.
      * rewrite col_sizes_init_spec by done.
        rewrite (get_fmap_value (λ _ label, len label)). by rewrite Hlabel.
    + apply get_None in Hlabel. done.
Qed.
End col_sizes.

(** ** Running the renderer *)

Section running.
Lemma run_bind {A B} (m : M A) (f : A → M B) w :
  run (m ≫= f) w =
  match run m w with
  | (w', Return x) => run (f x) w'
  | (w', Raise e) => (w', Raise e)
  end.
Proof. reflexivity. Qed.

Lemma run_lift_bind {A B} (x : A) (f : A → M B) w :
  run (lift (Return x) ≫= f) w = run (f x) w.
Proof. reflexivity. Qed.

Lemma run_lift_raise {A B} e (f : A → M B) w :
  run (lift (Raise e) ≫= f) w = (w, Raise e).
Proof. reflexivity. Qed.

Lemma printed_nil w : printed w [] = w.
Proof. destruct w. unfold printed. simpl. by rewrite app_nil_r. Qed.

Lemma printed_app w l1 l2 : printed (printed w l1) l2 = printed w (l1 ++ l2).
Proof. unfold printed. simpl. by rewrite app_assoc. Qed.

Lemma run_print_bind {B} line (k : M B) w :
  run (print line ≫= λ _, k) w = run k (printed w [line]).
Proof. reflexivity. Qed.

Lemma for_each_print {A} (g : A → string) (body : A → M unit) (xs : list A) w :
  (∀ x w, x ∈ xs → run (body x) w = (printed w [g x], Return ())) →
  run (for_each xs body) w = (printed w (g <$> xs), Return ()).
Proof.
  revert w. induction xs as [|x xs IH]; intros w Hbody.
  - simpl. by rewrite printed_nil.
  - cbn [for_each]. rewrite run_bind, Hbody by (apply elem_of_cons; by left).
    rewrite IH.
    + by rewrite printed_app.
    + intros y w' Hy. apply Hbody, elem_of_cons. by right.
Qed.

Lemma format_fields_ok {A} (fld : A → format_field) (arg : A → string) (l : list A) :
  (∀ x, x ∈ l → 0 ≤ ff_width (fld x)) →
  format_fields (fld <$> l) (arg <$> l) =
  Return ((λ x, pad (ff_align (fld x)) (Z.to_nat (ff_width (fld x))) (arg x)) <$> l).
Proof.
  induction l as [|x l IH]; intros Hw; csimpl; [done|].
  unfold format_value.
  destruct (Z.ltb_spec (ff_width (fld x)) 0) as [Hneg|_].
  { specialize (Hw x ltac:(apply elem_of_cons; by left)). lia. }
  rewrite IH; [done|]. intros y Hy. apply Hw, elem_of_cons. by right.
Qed.

Lemma column_width_nonneg entries max_cols field label :
  0 ≤ max_cols → 0 ≤ column_width entries max_cols field label.
Proof.
  intros Hm. unfold column_width.
  pose proof (len_nonneg label). pose proof (widest_nonneg entries field). lia.
Qed.

Lemma column_width_negative entries max_cols field label :
  max_cols < 0 → column_width entries max_cols field label < 0.
Proof. intros Hm. unfold column_width. lia. Qed.

Lemma item_column_widths entries max_cols (fields : list (string * string)) f label :
  NoDup (Dict.keys fields) → (f, label) ∈ fields →
  Dict.item (column_widths entries max_cols fields) f =
  Return (column_width entries max_cols f label).
Proof.
  intros Hnd Hin. unfold Dict.item, column_widths.
  rewrite (get_fmap_value (λ f label, column_width entries max_cols f label)).
  by rewrite (get_elem_of fields f label Hnd Hin).
Qed.

(** The replacement fields [print_table] builds: one per column, holding
    the width of the column. *)
Lemma value_formats_spec entries max_cols (fields : list (string * string)) :
  NoDup (Dict.keys fields) →
  comprehension
    (λ field, size ← Dict.item (column_widths entries max_cols fields) field;
              mret (FormatField AlignLeft size))
    (Dict.keys fields) =
  Return ((λ '(field, label),
             FormatField AlignLeft (column_width entries max_cols field label))
            <$> fields).
Proof.
  intros Hnd.
  assert (∀ l : list (string * string), l ⊆ fields →
    comprehension
      (λ field, size ← Dict.item (column_widths entries max_cols fields) field;
                mret (FormatField AlignLeft size))
      (Dict.keys l) =
    Return ((λ '(field, label),
               FormatField AlignLeft (column_width entries max_cols field label))
              <$> l)) as Hgen.
  { induction l as [|[f label] l IH]; intros Hsub; [done|].
    change (Dict.keys ((f, label) :: l)) with (f :: Dict.keys l).
    cbn [comprehension].
    rewrite (item_column_widths entries max_cols fields f label Hnd) by set_solver.
    rewrite IH by set_solver. done. }
  by apply Hgen.
Qed.
End running.

Section print_table_runs.
Variables (entries : list row) (fields : list (string * string)).
Variables (max_cols : Z) (sep : string).

Let ordered := Dict.from_pairs fields.

(** Bring both arguments of [format_fields] to the shape of
    [format_fields_ok]: one function per argument, mapped over the same
    list. *)
Ltac shape_format fld arg l :=
  match goal with
  | |- context [format_fields ?fs ?args] =>
      replace fs with (fld <$> l) by (apply list_fmap_ext; by intros ? [??] ?);
      replace args with (arg <$> l) by (apply list_fmap_ext; by intros ? [??] ?)
  end.

Lemma header_format_ok :
  0 ≤ max_cols →
  format
    (template_replace
       (Template sep
          ((λ '(field, label),
              FormatField AlignLeft (column_width entries max_cols field label))
             <$> ordered)))
    ((λ h, slice_to h max_cols) <$> Dict.values ordered) =
  Return (header_line entries max_cols sep ordered).
Proof.
  intros Hm. unfold format, template_replace, Dict.values, header_line. simpl.
  rewrite <- !list_fmap_compose.
  shape_format
    (λ x : string * string,
       FormatField AlignCenter (column_width entries max_cols x.1 x.2))
    (λ x : string * string, slice_to x.2 max_cols) ordered.
  rewrite format_fields_ok.
  - simpl. do 2 f_equal. apply list_fmap_ext. by intros ? [??] ?.
  - intros [f label] _. simpl. by apply column_width_nonneg.
Qed.

Lemma row_format_ok (entry : row) :
  0 ≤ max_cols →
  format
    (Template sep
       ((λ '(field, label),
           FormatField AlignLeft (column_width entries max_cols field label))
          <$> ordered))
    ((λ field, _extract_value entry field max_cols (PyStr "")) <$> Dict.keys ordered) =
  Return (data_line entries max_cols sep ordered entry).
Proof.
  intros Hm. unfold format, Dict.keys, data_line. simpl.
  rewrite <- !list_fmap_compose.
  shape_format
    (λ x : string * string,
       FormatField AlignLeft (column_width entries max_cols x.1 x.2))
    (λ x : string * string, _extract_value entry x.1 max_cols (PyStr "")) ordered.
  rewrite format_fields_ok.
  - simpl. do 2 f_equal. apply list_fmap_ext. by intros ? [??] ?.
  - intros [f label] _. simpl. by apply column_width_nonneg.
Qed.

(** With a width that is not negative, or no column at all, the table is
    printed in full and nothing is raised. *)
Lemma print_table_ok w :
  0 ≤ max_cols ∨ ordered = [] →
  run (print_table entries fields max_cols sep) w =
  (printed w (table_lines entries max_cols sep ordered), Return ()).
Proof.
  intros Hok. unfold print_table. fold ordered.
  rewrite col_sizes_of_spec by apply from_pairs_NoDup.
  rewrite value_formats_spec by apply from_pairs_NoDup.
  rewrite run_lift_bind. cbv zeta.
  destruct Hok as [Hm|Hempty].
  - rewrite header_format_ok by done.
    rewrite run_lift_bind, !run_print_bind.
    rewrite (for_each_print (data_line entries max_cols sep ordered)).
    + by rewrite !printed_app.
    + intros entry w' _. by rewrite row_format_ok.
  - rewrite Hempty. simpl.
    rewrite (for_each_print (data_line entries max_cols sep [])).
    + unfold printed, table_lines. simpl. by rewrite <- !app_assoc.
    + done.
Qed.

(** With a negative width and at least one column nothing is printed and
    the header's format specifier is rejected. *)
Lemma print_table_err w :
  max_cols < 0 → ordered ≠ [] →
  run (print_table entries fields max_cols sep) w = (w, Raise ValueError).
Proof.
  intros Hm Hne. unfold print_table. fold ordered.
  rewrite col_sizes_of_spec by apply from_pairs_NoDup.
  rewrite value_formats_spec by apply from_pairs_NoDup.
  rewrite run_lift_bind. cbv zeta.
  destruct ordered as [|[f label] rest]; [done|].
  pose proof (column_width_negative entries max_cols f label Hm) as Hneg.
  unfold format, template_replace, Dict.values. csimpl.
  unfold format_value at 1. cbn [ff_width].
  by destruct (Z.ltb_spec (column_width entries max_cols f label) 0); [|lia].
Qed.
End print_table_runs.

(** ** Cells *)

Section cells.
Implicit Types (entries : list row) (entry : row) (field label : string).

Lemma print_table_returns entries fields max_cols sep w w' :
  run (print_table entries fields max_cols sep) w = (w', Return ()) →
  (0 ≤ max_cols ∨ Dict.from_pairs fields = []) ∧
  w' = printed w (table_lines entries max_cols sep (Dict.from_pairs fields)).
Proof.
  intros Hrun.
  destruct (decide (0 ≤ max_cols)) as [Hm|Hm].
  - rewrite print_table_ok in Hrun by (by left). split; [by left | congruence].
  - destruct (Dict.from_pairs fields) as [|x rest] eqn:Hord.
    + rewrite print_table_ok in Hrun by (by right). rewrite Hord in Hrun.
      split; [by right | congruence].
    + rewrite print_table_err in Hrun; [congruence | lia | by rewrite Hord].
Qed.

Lemma extract_value_cell_text entry field max_cols :
  _extract_value entry field max_cols (PyStr "") =
  slice_to (cell_text entry field) max_cols.
Proof.
  unfold _extract_value, cell_text, Dict.get_or.
  by destruct (Dict.get entry field) as [[]|].
Qed.

Lemma cell_text_le_value_len entry field :
  len (cell_text entry field) ≤ value_len entry field.
Proof.
  unfold cell_text, value_len, Dict.get_or.
  destruct (Dict.get entry field) as [v|]; [|done].
  destruct v; try reflexivity. apply len_nonneg.
Qed.

Lemma value_len_le_widest entries entry field :
  entry ∈ entries → value_len entry field ≤ widest entries field.
Proof.
  unfold widest. induction entries as [|e entries IH]; csimpl.
  - intros Hin. by apply elem_of_nil in Hin.
  - intros [->|Hin]%elem_of_cons; [lia|]. specialize (IH Hin). lia.
Qed.

Lemma len_header_cell entries max_cols field label :
  0 ≤ max_cols →
  len (header_cell entries max_cols field label) =
  column_width entries max_cols field label.
Proof.
  intros Hm. pose proof (column_width_nonneg entries max_cols field label Hm) as Hw.
  pose proof (len_slice_to label max_cols Hm) as Hs.
  pose proof (widest_nonneg entries field).
  unfold header_cell, column_width, len in *. rewrite length_pad. lia.
Qed.

Lemma len_data_cell entries max_cols entry field label :
  0 ≤ max_cols → entry ∈ entries →
  len (data_cell entries max_cols entry field label) =
  column_width entries max_cols field label.
Proof.
  intros Hm Hin.
  pose proof (column_width_nonneg entries max_cols field label Hm) as Hw.
  pose proof (len_slice_to (cell_text entry field) max_cols Hm) as Hs.
  pose proof (cell_text_le_value_len entry field).
  pose proof (value_len_le_widest entries entry field Hin).
  unfold data_cell. rewrite extract_value_cell_text.
  unfold column_width, value_len, len in *. rewrite length_pad. lia.
Qed.

Lemma sum_acc (xs : list Z) (acc : Z) : fold_left Z.add xs acc = acc + sum xs.
Proof.
  unfold sum. revert acc. induction xs as [|x xs IH]; intros acc; simpl; [lia|].
  rewrite (IH (acc + x)), (IH (0 + x)). lia.
Qed.

Lemma sum_cons (x : Z) (xs : list Z) : sum (x :: xs) = x + sum xs.
Proof. unfold sum at 1. simpl. by rewrite sum_acc. Qed.

Lemma sum_nonneg (xs : list Z) : Forall (λ x, 0 ≤ x) xs → 0 ≤ sum xs.
Proof.
  induction 1 as [|x xs Hx _ IH]; [done|]. rewrite sum_cons. lia.
Qed.

Lemma sum_column_widths_nonneg entries max_cols (fields : list (string * string)) :
  0 ≤ max_cols → 0 ≤ sum (Dict.values (column_widths entries max_cols fields)).
Proof.
  intros Hm. apply sum_nonneg. unfold Dict.values, column_widths.
  apply Forall_fmap, Forall_fmap, Forall_forall. intros [f label] _. simpl.
  by apply column_width_nonneg.
Qed.

Lemma str_mul_repeat c (n : Z) :
  str_mul c n = str_repeat c (String.length (str_mul c n)).
Proof. unfold str_mul. by rewrite length_str_repeat. Qed.

Lemma len_str_mul c (n : Z) : len (str_mul c n) = Z.max 0 n.
Proof. unfold str_mul, len. rewrite length_str_repeat. lia. Qed.
End cells.

(** ** The width of the columns and the rule (C1) *)

(** C1, where the claim fails: a table with no column. The rule line printed
    is empty, while the sum of the widths plus (number of columns - 1) times
    the length of the separator is -3. *)
Lemma rule_line_without_columns :
  run (print_table [] [] 100 " | ") (World [] []) = (World [""; ""] [], Return ())
  ∧ table_width [] (col_sizes_of [] [] 100) " | " = -3
  ∧ len "" ≠ table_width [] (col_sizes_of [] [] 100) " | ".
Proof. split_and!; [reflexivity | reflexivity | discriminate]. Qed.

(** C1 (amended). For every table [print_table] renders, the size kept for
    each column is min(max_cols, max(length of the label, largest length of
    the text of that field over all rows)), and every cell of the column,
    header or data, is that many characters wide. The rule line holds only
    dashes; with at least one column their number is the sum of the column
    widths plus (number of columns - 1) times the length of the separator,
    and with no column the rule line is empty. *)
Theorem print_table_widths_and_rule entries fields max_cols sep w w' :
  plain_sep sep = true →
  run (print_table entries fields max_cols sep) w = (w', Return ()) →
  let ordered := Dict.from_pairs fields in
  let col_sizes := col_sizes_of entries ordered max_cols in
  (∀ field label, (field, label) ∈ ordered →
     Dict.get col_sizes field =
       Some (Z.min max_cols (Z.max (len label) (widest entries field)))
     ∧ len (header_cell entries max_cols field label) =
       Z.min max_cols (Z.max (len label) (widest entries field))
     ∧ ∀ entry, entry ∈ entries →
         len (data_cell entries max_cols entry field label) =
         Z.min max_cols (Z.max (len label) (widest entries field)))
  ∧ ∃ rule,
      stdout w' = stdout w ++ header_line entries max_cols sep ordered :: rule
                    :: (data_line entries max_cols sep ordered <$> entries)
      ∧ rule = str_repeat "-" (String.length rule)
      ∧ (ordered ≠ [] →
         len rule = sum (Dict.values col_sizes)
                    + (Z.of_nat (length ordered) - 1) * len sep)
      ∧ (ordered = [] → rule = "").
Proof.
  intros _ Hrun ordered col_sizes.
  apply print_table_returns in Hrun as [Hok ->]. fold ordered in Hok.
  assert (NoDup (Dict.keys ordered)) as Hnd by apply from_pairs_NoDup.
  unfold col_sizes. rewrite col_sizes_of_spec by done.
  split.
  - intros field label Hin.
    assert (0 ≤ max_cols) as Hm.
    { destruct Hok as [?|Hempty]; [done|]. rewrite Hempty in Hin.
      by apply elem_of_nil in Hin. }
    split_and!.
    + unfold column_widths.
      rewrite (get_fmap_value (λ f label, column_width entries max_cols f label)).
      by rewrite (get_elem_of ordered field label Hnd Hin).
    + by apply len_header_cell.
    + intros entry Hentry. by apply len_data_cell.
  - exists (rule_line entries max_cols sep ordered). split_and!.
    + done.
    + apply str_mul_repeat.
    + intros Hne. unfold rule_line. rewrite len_str_mul. unfold table_width.
      assert (0 ≤ max_cols) as Hm by (destruct Hok; done).
      pose proof (sum_column_widths_nonneg entries max_cols ordered Hm).
      pose proof (len_nonneg sep).
      assert (1 ≤ Z.of_nat (length ordered)) by (destruct ordered; [done | simpl; lia]).
      nia.
    + intros Hempty. unfold rule_line. rewrite Hempty. simpl.
      unfold table_width, str_mul. simpl.
      pose proof (len_nonneg sep).
      replace (Z.to_nat _) with 0%nat by (unfold sum; simpl; lia). done.
Qed.

Lemma print_table_widths_and_rule_witness :
  ∃ rule,
    [" x   | why "; "-----------"; "ab   |     "; "abcd |     "; "     | 5   "]
    = " x   | why " :: rule :: ["ab   |     "; "abcd |     "; "     | 5   "]
    ∧ len rule = 4 + 4 + (2 - 1) * 3.
Proof.
  destruct (print_table_widths_and_rule
    [[("x", PyStr "ab")]; [("x", PyStr "abcdef"); ("y", PyNone)]; [("y", PyInt 5)]]
    [("x", "x"); ("y", "why")] 4 " | " (World [] [])
    (World [" x   | why "; "-----------"; "ab   |     "; "abcd |     "; "     | 5   "] [])
    eq_refl eq_refl) as [_ (rule & Hout & _ & Hlen & _)].
  exists rule. split; [exact Hout | apply Hlen; discriminate].
Defined.

(** ** The columns of a JSON document (C2) *)

Section json_columns.
Lemma scan_rows_records (rows : list row) (cols : gset string) :
  scan_rows cols (PyDict <$> rows) =
  Return (cols ∪ list_to_set (mjoin (Dict.keys <$> rows)), rows).
Proof.
  revert cols. induction rows as [|r rows IH]; intros cols; csimpl.
  - by rewrite (right_id_L ∅ (∪)).
  - rewrite IH. csimpl. by rewrite list_to_set_app_L, (assoc_L (∪)).
Qed.

Lemma elem_of_sorted_key_union (rows : list row) k :
  k ∈ sorted_key_union rows ↔ ∃ r, r ∈ rows ∧ k ∈ Dict.keys r.
Proof.
  unfold sorted_key_union.
  rewrite merge_sort_Permutation, elem_of_remove_dups, list_elem_of_join.
  split.
  - intros (ks & Hk & (r & -> & Hr)%list_elem_of_fmap). by exists r.
  - intros (r & Hr & Hk). exists (Dict.keys r). split; [done|].
    apply list_elem_of_fmap. by exists r.
Qed.

Lemma json_attempt_records h content (rows : list row) :
  json_loads h content = Return (PyList (PyDict <$> rows)) →
  json_attempt h content = Return (sorted_key_union rows, rows).
Proof.
  intros Hload. unfold json_attempt. rewrite Hload. csimpl.
  rewrite scan_rows_records. csimpl. do 2 f_equal.
  unfold sorted_key_union.
  apply (Sorted_unique String.le); [apply Sorted_merge_sort, _ .. |].
  rewrite !merge_sort_Permutation.
  apply NoDup_Permutation; [apply NoDup_elements | apply NoDup_remove_dups |].
  intros k. rewrite elem_of_elements, elem_of_remove_dups. set_solver.
Qed.
End json_columns.

(** C2. When the input parses as JSON and its elements are key-value
    records, [parse_data] returns as columns the sorted, de-duplicated union
    of the keys of all the objects; the list is in lexicographic order, has no
    name twice, and holds exactly the keys that occur in some object. The
    rows are the objects. *)
Theorem parse_data_json_columns h source content (rows : list row) :
  read_source h source = Return content →
  json_loads h content = Return (PyList (PyDict <$> rows)) →
  parse_data h source = Return (Some (sorted_key_union rows), rows)
  ∧ Sorted String.le (sorted_key_union rows)
  ∧ NoDup (sorted_key_union rows)
  ∧ ∀ k, k ∈ sorted_key_union rows ↔ ∃ r, r ∈ rows ∧ k ∈ Dict.keys r.
Proof.
  intros Hread Hload. split_and!.
  - unfold parse_data. rewrite Hread. csimpl.
    by rewrite (json_attempt_records h content rows Hload).
  - apply Sorted_merge_sort, _.
  - unfold sorted_key_union. rewrite merge_sort_Permutation. apply NoDup_remove_dups.
  - apply elem_of_sorted_key_union.
Qed.

Lemma parse_data_json_columns_witness :
  parse_data abc_host "-" = Return (Some ["a"; "b"; "c"], abc_rows).
Proof.
  exact (proj1 (parse_data_json_columns abc_host "-" abc_text abc_rows eq_refl eq_refl)).
Defined.

(** ** Empty input (C3) *)

Lemma print_table_no_columns entries max_cols sep w :
  run (print_table entries [] max_cols sep) w =
  (printed w ("" :: "" :: ((λ _, "") <$> entries)), Return ()).
Proof.
  rewrite print_table_ok by (by right).
  unfold table_lines, header_line, rule_line, data_line, table_width, str_mul.
  simpl. pose proof (len_nonneg sep).
  replace (Z.to_nat _) with 0%nat by (unfold sum; simpl; lia). done.
Qed.

(** C3, what the code does. On empty standard input the JSON attempt fails
    and the delimited fallback runs without raising, but it returns [None]
    as the column list, not an empty list, and zero rows; [main] then
    iterates over [None] and raises [TypeError] before anything is printed.
    [print_table] itself, given no column and no row, prints an empty header
    line and an empty rule line. *)
Theorem empty_input_raises h a w e :
  data_source a = "-" → only_columns a = None → query a = None →
  stdin_read h = Return "" →
  json_loads h "" = Raise e →
  csv_reader h "" = Return [] →
  parse_data h "-" = Return (None, [])
  ∧ run (main h a) w = (w, Raise TypeError)
  ∧ run (print_table [] [] (max_cols a) " | ") w = (printed w [""; ""], Return ()).
Proof.
  intros Hsrc Honly Hquery Hin Hjson Hcsv.
  assert (parse_data h "-" = Return (None, [])) as Hparse.
  { unfold parse_data, read_source. simpl. rewrite Hin. csimpl.
    unfold json_attempt, csv_attempt. by rewrite Hjson, Hcsv. }
  split_and!; [done | | apply print_table_no_columns].
  unfold main. rewrite Hsrc, Hparse. unfold select_columns, query_step.
  by rewrite Honly, Hquery.
Qed.

Lemma empty_input_raises_witness :
  parse_data empty_host "-" = Return (None, [])
  ∧ run (main empty_host default_args) (World [] []) = (World [] [], Raise TypeError)
  ∧ run (print_table [] [] 100 " | ") (World [] []) = (World [""; ""] [], Return ()).
Proof.
  exact (empty_input_raises empty_host default_args (World [] []) JSONDecodeError
           eq_refl eq_refl eq_refl eq_refl eq_refl eq_refl).
Defined.

(** ** Truncation (C4) *)

Section truncation.
Lemma pad_exact a n s : (n ≤ String.length s)%nat → pad a n s = s.
Proof.
  intros Hn. unfold pad. replace (n - String.length s)%nat with 0%nat by lia.
  destruct a; simpl; by rewrite app_empty_r.
Qed.

Lemma slice_to_take s m : 0 ≤ m → slice_to s m = str_take (Z.to_nat m) s.
Proof. intros Hm. unfold slice_to. by destruct (Z.ltb_spec m 0); [lia|]. Qed.

Lemma len_take_long s m : 0 ≤ m → m < len s → len (str_take (Z.to_nat m) s) = m.
Proof. intros Hm Hlong. unfold len in *. rewrite length_str_take. lia. Qed.
End truncation.

(** C4. In every table [print_table] renders, a header label longer than
    [max_cols] is shown as its first [max_cols] characters, and so is the
    text of a data cell (the text of the value, empty for a missing value
    and for [None]) that is longer than [max_cols]; the cell is then exactly
    [max_cols] characters wide. *)
Theorem cells_truncated entries fields max_cols sep w w' :
  plain_sep sep = true →
  run (print_table entries fields max_cols sep) w = (w', Return ()) →
  let ordered := Dict.from_pairs fields in
  stdout w' = stdout w ++ table_lines entries max_cols sep ordered
  ∧ (∀ field label, (field, label) ∈ ordered → max_cols < len label →
       header_cell entries max_cols field label = str_take (Z.to_nat max_cols) label
       ∧ len (header_cell entries max_cols field label) = max_cols)
  ∧ (∀ entry field label, entry ∈ entries → (field, label) ∈ ordered →
       max_cols < len (cell_text entry field) →
       _extract_value entry field max_cols (PyStr "") =
         str_take (Z.to_nat max_cols) (cell_text entry field)
       ∧ data_cell entries max_cols entry field label =
         str_take (Z.to_nat max_cols) (cell_text entry field)
       ∧ len (data_cell entries max_cols entry field label) = max_cols).
Proof.
  intros _ Hrun ordered.
  apply print_table_returns in Hrun as [Hok ->]. fold ordered in Hok.
  assert (∀ field label, (field, label) ∈ ordered → 0 ≤ max_cols) as Hm.
  { intros field label Hin. destruct Hok as [?|Hempty]; [done|].
    rewrite Hempty in Hin. by apply elem_of_nil in Hin. }
  split_and!; [done | |].
  - intros field label Hin Hlong. specialize (Hm _ _ Hin).
    assert (header_cell entries max_cols field label
            = str_take (Z.to_nat max_cols) label) as Hcell.
    { unfold header_cell. rewrite slice_to_take by done.
      apply pad_exact. pose proof (len_take_long label max_cols Hm Hlong).
      unfold column_width, len in *. lia. }
    split; [done|]. rewrite Hcell. by apply len_take_long.
  - intros entry field label Hentry Hin Hlong. specialize (Hm _ _ Hin).
    assert (_extract_value entry field max_cols (PyStr "")
            = str_take (Z.to_nat max_cols) (cell_text entry field)) as Hvalue.
    { rewrite extract_value_cell_text. by apply slice_to_take. }
    assert (data_cell entries max_cols entry field label
            = str_take (Z.to_nat max_cols) (cell_text entry field)) as Hcell.
    { unfold data_cell. rewrite Hvalue. apply pad_exact.
      pose proof (len_take_long _ max_cols Hm Hlong).
      unfold column_width, len in *. lia. }
    split_and!; [done | done |]. rewrite Hcell. by apply len_take_long.
Qed.

Lemma cells_truncated_witness :
  run (print_table x_rows [("x", "x")] 4 " | ") (World [] [])
    = (World [" x  "; "----"; "ab  "; "abcd"] [], Return ())
  ∧ Dict.get (col_sizes_of x_rows [("x", "x")] 4) "x" = Some 4
  ∧ data_cell x_rows 4 [("x", PyStr "abcdef")] "x" "x" = "abcd"
  ∧ len (data_cell x_rows 4 [("x", PyStr "abcdef")] "x" "x") = 4.
Proof.
  destruct (cells_truncated x_rows [("x", "x")] 4 " | " (World [] [])
              (World [" x  "; "----"; "ab  "; "abcd"] []) eq_refl eq_refl)
    as (_ & _ & Hdata).
  destruct (Hdata [("x", PyStr "abcdef")] "x" "x") as (_ & Hcell & Hlen).
  - apply elem_of_cons. right. apply elem_of_cons. by left.
  - apply elem_of_cons. by left.
  - reflexivity.
  - split_and!; [reflexivity | reflexivity | exact Hcell | exact Hlen].
Defined.

(** ** Missing values (C5) *)

Lemma extract_value_missing entry field max_cols :
  Dict.get entry field = None → _extract_value entry field max_cols (PyStr "") = "".
Proof.
  intros Hget. rewrite extract_value_cell_text. unfold cell_text. rewrite Hget.
  apply slice_to_empty.
Qed.

Lemma print_table_outcome entries fields max_cols sep w :
  (run (print_table entries fields max_cols sep) w).2 =
  if decide (max_cols < 0 ∧ Dict.from_pairs fields ≠ []) then Raise ValueError
  else Return ().
Proof.
  case_decide as Hcase.
  - destruct Hcase. by rewrite print_table_err.
  - rewrite print_table_ok; [done|].
    destruct (decide (0 ≤ max_cols)); [by left | right].
    destruct (decide (Dict.from_pairs fields = [])); [done|].
    exfalso. apply Hcase. split; [lia | done].
Qed.




(** ** Alignment (C6) *)

Lemma half_fill (n : nat) : (n / 2 ≤ n - n / 2 ≤ n / 2 + 1)%nat.
Proof.
  pose proof (Nat.div_mod_eq n 2) as Hn.
  pose proof (Nat.mod_upper_bound n 2 ltac:(lia)). lia.
Qed.

(** C6. In every table [print_table] renders, the header line is the header
    cells joined by the separator (in which ['<'] is written ['^']) and each
    data line is the data cells of its row joined by the separator. A header
    cell is the label, cut to [max_cols], between spaces: as many to its
    left as to its right, or one more to its right. A data cell is the text
    of the value followed by spaces: the text starts at the first character
    of the column. Either cell is as wide as the column. *)
Theorem header_centred_data_left entries fields max_cols sep w w' :
  plain_sep sep = true →
  run (print_table entries fields max_cols sep) w = (w', Return ()) →
  let ordered := Dict.from_pairs fields in
  let width := column_width entries max_cols in
  (∃ rule,
     stdout w' =
     stdout w
       ++ join (replace_char "<" "^" sep)
            ((λ '(field, label), header_cell entries max_cols field label) <$> ordered)
       :: rule
       :: ((λ entry,
              join sep ((λ '(field, label),
                           data_cell entries max_cols entry field label) <$> ordered))
             <$> entries))
  ∧ (∀ field label, (field, label) ∈ ordered →
       ∃ left right : nat,
         header_cell entries max_cols field label =
           spaces left +:+ slice_to label max_cols +:+ spaces right
         ∧ (left ≤ right ≤ left + 1)%nat
         ∧ len (header_cell entries max_cols field label) = width field label)
  ∧ (∀ entry field label, entry ∈ entries → (field, label) ∈ ordered →
       ∃ right : nat,
         data_cell entries max_cols entry field label =
           _extract_value entry field max_cols (PyStr "") +:+ spaces right
         ∧ len (data_cell entries max_cols entry field label) = width field label).
Proof.
  intros _ Hrun ordered width.
  apply print_table_returns in Hrun as [Hok ->]. fold ordered in Hok.
  assert (∀ field label, (field, label) ∈ ordered → 0 ≤ max_cols) as Hm.
  { intros field label Hin. destruct Hok as [?|Hempty]; [done|].
    rewrite Hempty in Hin. by apply elem_of_nil in Hin. }
  split_and!.
  - by exists (rule_line entries max_cols sep ordered).
  - intros field label Hin. specialize (Hm _ _ Hin).
    eexists _, _. split; [reflexivity|]. split; [apply half_fill|].
    by apply len_header_cell.
  - intros entry field label Hentry Hin. specialize (Hm _ _ Hin).
    eexists. split; [reflexivity|]. by apply len_data_cell.
Qed.

Lemma header_centred_data_left_witness :
  run (print_table x_rows [("x", "x")] 4 " | ") (World [] [])
    = (World [" x  "; "----"; "ab  "; "abcd"] [], Return ())
  ∧ ∃ left right : nat,
      header_cell x_rows 4 "x" "x" = spaces left +:+ "x" +:+ spaces right
      ∧ (left ≤ right ≤ left + 1)%nat
      ∧ len (header_cell x_rows 4 "x" "x") = 4.
Proof.
  destruct (header_centred_data_left x_rows [("x", "x")] 4 " | " (World [] [])
              (World [" x  "; "----"; "ab  "; "abcd"] []) eq_refl eq_refl)
    as (_ & Hheader & _).
  split; [reflexivity|].
  apply (Hheader "x" "x"). apply elem_of_cons. by left.
Defined.

(** ** [None] values (C10) *)

(** C10. A row that holds [None] for a column shows the empty text there,
    exactly as a row without the column does. The size of the column is
    computed from [str(None)], which has four characters, so the column is at
    least min(max_cols, 4) wide. It can be wider than everything shown in
    it: the table of the single row [{"a": None}] has a column of width 4
    whose header text has one character and whose only data text is
    empty. *)
Theorem none_value_blank_but_counted entries fields max_cols entry field label :
  entry ∈ entries → (field, label) ∈ Dict.from_pairs fields →
  Dict.get entry field = Some PyNone →
  _extract_value entry field max_cols (PyStr "") = ""
  ∧ (∀ other, Dict.get other field = None →
       _extract_value other field max_cols (PyStr "")
       = _extract_value entry field max_cols (PyStr ""))
  ∧ value_len entry field = 4
  ∧ (∃ size, Dict.get (col_sizes_of entries (Dict.from_pairs fields) max_cols) field
             = Some size ∧ Z.min max_cols 4 ≤ size)
  ∧ run (print_table [[("a", PyNone)]] [("a", "a")] 100 " | ") (World [] [])
    = (World [" a  "; "----"; "    "] [], Return ()).
Proof.
  intros Hentry Hin Hget.
  assert (_extract_value entry field max_cols (PyStr "") = "") as Hvalue.
  { rewrite extract_value_cell_text. unfold cell_text. rewrite Hget.
    apply slice_to_empty. }
  assert (value_len entry field = 4) as Hlen.
  { unfold value_len, Dict.get_or. by rewrite Hget. }
  split_and!; [done | | done | | reflexivity].
  - intros other Hother. by rewrite Hvalue, extract_value_missing.
  - exists (column_width entries max_cols field label). split.
    + rewrite col_sizes_of_spec by apply from_pairs_NoDup.
      unfold column_widths.
      rewrite (get_fmap_value (λ f label, column_width entries max_cols f label)).
      by rewrite (get_elem_of _ field label (from_pairs_NoDup fields) Hin).
    + pose proof (value_len_le_widest entries entry field Hentry).
      unfold column_width. lia.
Qed.

Lemma none_value_blank_but_counted_witness :
  _extract_value [("a", PyNone)] "a" 100 (PyStr "") = ""
  ∧ value_len [("a", PyNone)] "a" = 4
  ∧ ∃ size, Dict.get (col_sizes_of [[("a", PyNone)]] [("a", "a")] 100) "a" = Some size
            ∧ 4 ≤ size.
Proof.
  destruct (none_value_blank_but_counted [[("a", PyNone)]] [("a", "a")] 100
              [("a", PyNone)] "a" "a") as (Hvalue & _ & Hlen & Hsize & _).
  - apply elem_of_cons. by left.
  - apply elem_of_cons. by left.
  - reflexivity.
  - split_and!; [exact Hvalue | exact Hlen | exact Hsize].
Defined.

(** ** The column list of the command line (C7) *)

(** C7, where the claim fails: [--only-columns] given with no name. The
    list supplied is empty, and the detected columns are kept. *)
Lemma only_columns_without_names :
  only_columns only_nothing_args = Some []
  ∧ select_columns only_nothing_args (Some ["a"; "b"]) = Some ["a"; "b"]
  ∧ select_columns only_nothing_args (Some ["a"; "b"]) ≠ Some []
  ∧ run (main ab_host only_nothing_args) (World [] [])
    = (World ["a | b"; "-----"; "1 | 2"] [], Return ()).
Proof. split_and!; [reflexivity | reflexivity | discriminate | reflexivity]. Qed.

(** C7 (amended). When [--only-columns] is given with at least one name,
    the names replace the detected column list, and [main] goes on with
    them and with the rows as they were parsed: the query step and the
    renderer see the names given and the same rows. When it is given with
    no name, the detected column list is kept. *)
Theorem only_columns_replace h a w :
  (∀ cols names,
     only_columns a = Some names → names ≠ [] → select_columns a cols = Some names)
  ∧ (∀ cols, only_columns a = Some [] → select_columns a cols = cols)
  ∧ (∀ cols data names,
       parse_data h (data_source a) = Return (cols, data) →
       only_columns a = Some names → names ≠ [] →
       run (main h a) w =
       run ('(cols', data') ← query_step h a (Some names) data;
            render a cols' data') w).
Proof.
  assert (∀ cols names, only_columns a = Some names → names ≠ [] →
            select_columns a cols = Some names) as Hsel.
  { intros cols names Honly Hne. unfold select_columns. rewrite Honly.
    by destruct names. }
  split_and!; [done | |].
  - intros cols Honly. unfold select_columns. by rewrite Honly.
  - intros cols data names Hparse Honly Hne. unfold main.
    rewrite Hparse. rewrite run_lift_bind. by rewrite (Hsel cols names).
Qed.

(** ** Running the query step *)

Section store.
Lemma run_query_step h a cols data c q w :
  query a = Some (String c q) →
  run (query_step h a cols data) w =
  match run (TempDB.__enter__ h data cols) w with
  | (w1, Raise e) => (w1, Raise e)
  | (w1, Return _) =>
      let body :=
        '(cols, data) ← TempDB.query h (String c q); mret (Some cols, data) in
      match run body w1 with
      | (w2, Return b) =>
          match run TempDB.__exit__ w2 with
          | (w3, Return _) => (w3, Return b)
          | (w3, Raise e) => (w3, Raise e)
          end
      | (w2, Raise e) =>
          match run TempDB.__exit__ w2 with
          | (w3, Return _) => (w3, Raise e)
          | (w3, Raise e') => (w3, Raise e')
          end
      end
  end.
Proof. intros Hq. unfold query_step. by rewrite Hq. Qed.

(** What [__enter__] leaves on the connection: it was opened, and nothing
    [__enter__] does closes it. *)
Lemma enter_log h data cols w w1 r :
  run (TempDB.__enter__ h data cols) w = (w1, r) →
  stdout w1 = stdout w
  ∧ ∃ events, db_log w1 = db_log w ++ Connect :: events ∧ Close ∉ events.
Proof.
  unfold TempDB.__enter__, TempDB._make_table, TempDB._insert_data.
  destruct cols as [columns|]; simpl.
  - destruct (sqlite_run h (db_log w ++ [Connect]) _) as [cur|e]; simpl.
    + destruct (sqlite_run h _ _) as [cur'|e]; simpl;
        intros [= <- <-]; simpl; (split; [done|]);
        rewrite <- !app_assoc; simpl; eexists; (split; [done|]);
        intros Hin;
        repeat (apply elem_of_cons in Hin as [Hin|Hin]; [discriminate|]);
        by apply elem_of_nil in Hin.
    + intros [= <- <-]; simpl. split; [done|].
      rewrite <- !app_assoc; simpl. eexists. split; [done|].
      intros Hin.
      repeat (apply elem_of_cons in Hin as [Hin|Hin]; [discriminate|]).
      by apply elem_of_nil in Hin.
  - intros [= <- <-]; simpl. split; [done|].
    exists []. split; [done | apply not_elem_of_nil].
Qed.

(** When [__enter__] returns, the query runs and the connection is closed
    after it, whether the query returned or raised. *)
Lemma store_closed_after_query h a cols data c q w w1 :
  query a = Some (String c q) →
  run (TempDB.__enter__ h data cols) w = (w1, Return ()) →
  ∃ w2 r events,
    run (query_step h a cols data) w = (w2, r)
    ∧ db_log w2 = db_log w1 ++ events ++ [Close]
    ∧ Close ∉ events.
Proof.
  intros Hq Henter. rewrite (run_query_step h a cols data c q w Hq), Henter.
  unfold TempDB.query. simpl.
  destruct (sqlite_run h (db_log w1) (Execute (String c q))) as [cur|e]; simpl.
  - destruct (comprehension _ _) as [rows|e]; simpl.
    + destruct (columns_iter (description cur)) as [names|e]; simpl;
        eexists _, _, [Call (Execute (String c q))];
        (split; [done|]); (split; [by rewrite <- app_assoc|]);
        intros Hin; apply elem_of_cons in Hin as [Hin|Hin]; [discriminate| |discriminate|];
        by apply elem_of_nil in Hin.
    + eexists _, _, [Call (Execute (String c q))].
      split; [done|]. split; [by rewrite <- app_assoc|].
      intros Hin; apply elem_of_cons in Hin as [Hin|Hin]; [discriminate|].
      by apply elem_of_nil in Hin.
  - eexists _, _, [Call (Execute (String c q))].
    split; [done|]. split; [by rewrite <- app_assoc|].
    intros Hin; apply elem_of_cons in Hin as [Hin|Hin]; [discriminate|].
    by apply elem_of_nil in Hin.
Qed.
(** When the query step returns, [__enter__] and the query have returned. *)
Lemma query_step_returns h a cols data c q w w' r :
  query a = Some (String c q) →
  run (query_step h a cols data) w = (w', Return r) →
  ∃ w1 w2 names rows,
    run (TempDB.__enter__ h data cols) w = (w1, Return ())
    ∧ run (TempDB.query h (String c q)) w1 = (w2, Return (names, rows))
    ∧ r = (Some names, rows).
Proof.
  intros Hq. rewrite (run_query_step h a cols data c q w Hq).
  destruct (run (TempDB.__enter__ h data cols) w) as [w1 [[]|e]]; [|done].
  cbv zeta. rewrite run_bind.
  destruct (run (TempDB.query h (String c q)) w1) as [wq [[names rows]|e]] eqn:Hquery;
    simpl; [|done].
  intros [= <- <-]. by exists w1, wq, names, rows.
Qed.
End store.

(** ** The fallback to delimited text (C8) *)

Section fallback.
Lemma scan_rows_not_dict (cols : gset string) (items : list pyval) :
  forallb is_dict items = false → scan_rows cols items = Raise AttributeError.
Proof.
  revert cols. induction items as [|item items IH]; intros cols; simpl; [done|].
  destruct item; simpl; try done.
  intros Hrest. by rewrite IH.
Qed.

(** What the [try] block does with a decoded document. *)
Lemma json_attempt_decoded h content v :
  json_loads h content = Return v →
  (is_records v = false → is_empty_iterable v = false →
   ∃ e, json_attempt h content = Raise e)
  ∧ (is_empty_iterable v = true → json_attempt h content = Return ([], [])).
Proof.
  intros Hload. unfold json_attempt. rewrite Hload. split.
  - intros Hrec Hempty. destruct v as [| | | |s|b|items|items]; simpl in *;
      try by eexists.
    + destruct s; [done|]. by eexists.
    + destruct b; [done|]. by eexists.
    + rewrite scan_rows_not_dict by done. by eexists.
    + destruct items as [|[k x] items]; [done|]. by eexists.
  - intros Hempty.
    destruct v as [| | | |[|]|[|]|[|]|[|]]; simpl in *; done.
Qed.

Lemma run_main_returns h a w w' :
  run (main h a) w = (w', Return ()) →
  ∃ cols data w1 cols' data',
    parse_data h (data_source a) = Return (cols, data)
    ∧ run (query_step h a (select_columns a cols) data) w = (w1, Return (cols', data'))
    ∧ run (render a cols' data') w1 = (w', Return ()).
Proof.
  unfold main. intros Hrun.
  destruct (parse_data h (data_source a)) as [[cols data]|e] eqn:Hparse;
    [|by rewrite run_lift_raise in Hrun].
  rewrite run_lift_bind, run_bind in Hrun.
  destruct (run (query_step h a (select_columns a cols) data) w)
    as [w1 [[cols' data']|e]] eqn:Hquery; [|done].
  by exists cols, data, w1, cols', data'.
Qed.
End fallback.

(** C8, where the claim fails: the document [{}]. It is valid JSON and not
    a sequence of records, yet the JSON attempt does not fail on it: the
    loop over an empty object visits nothing. [parse_data] returns no column
    and no row, where the delimited reading of the same text gives the one
    column [{}]. *)
Lemma empty_object_is_not_read_as_delimited :
  json_loads braces_host "{}" = Return (PyDict [])
  ∧ is_records (PyDict []) = false
  ∧ parse_data braces_host "-" = Return (Some [], [])
  ∧ csv_attempt braces_host "{}" = Return (Some ["{}"], [])
  ∧ parse_data braces_host "-" ≠ csv_attempt braces_host "{}".
Proof.
  split_and!; [reflexivity | reflexivity | reflexivity | reflexivity | discriminate].
Qed.

(** C8 (amended). [parse_data] falls back to delimited text exactly when
    the body of the [try] block raises, and then it returns what the
    delimited reading gives. That body raises when the text is not JSON, and
    when it is JSON but neither a list of objects nor an empty object, text
    or list; an empty object or text does not raise and gives no column and
    no row. No exception of the JSON attempt leaves [parse_data]: what it
    raises was raised by reading the source or by the delimited reading.
    Nothing else is caught: when [main] returns, parsing, the query step and
    the renderer have all returned, and when the query step returns, so have
    [__enter__] and the query. *)
Theorem json_failure_falls_back h a w :
  (∀ source content,
     read_source h source = Return content →
     (∀ e, json_attempt h content = Raise e →
           parse_data h source = csv_attempt h content)
     ∧ (∀ cols data, json_attempt h content = Return (cols, data) →
           parse_data h source = Return (Some cols, data))
     ∧ (∀ e, json_loads h content = Raise e → json_attempt h content = Raise e)
     ∧ (∀ v, json_loads h content = Return v →
           is_records v = false → is_empty_iterable v = false →
           ∃ e, json_attempt h content = Raise e)
     ∧ (∀ v, json_loads h content = Return v → is_empty_iterable v = true →
           json_attempt h content = Return ([], []))
     ∧ (∀ e, parse_data h source = Raise e →
           csv_attempt h content = Raise e
           ∧ ∃ e', json_attempt h content = Raise e'))
  ∧ (∀ source e, read_source h source = Raise e → parse_data h source = Raise e)
  ∧ (∀ w', run (main h a) w = (w', Return ()) →
        ∃ cols data w1 cols' data',
          parse_data h (data_source a) = Return (cols, data)
          ∧ run (query_step h a (select_columns a cols) data) w
            = (w1, Return (cols', data'))
          ∧ run (render a cols' data') w1 = (w', Return ()))
  ∧ (∀ c q cols data w' r,
        query a = Some (String c q) →
        run (query_step h a cols data) w = (w', Return r) →
        ∃ w1 w2 names rows,
          run (TempDB.__enter__ h data cols) w = (w1, Return ())
          ∧ run (TempDB.query h (String c q)) w1 = (w2, Return (names, rows))
          ∧ r = (Some names, rows)).
Proof.
  split_and!.
  - intros source content Hread.
    assert (parse_data h source =
            try_except ('(cols, data) ← json_attempt h content; mret (Some cols, data))
              (λ _, csv_attempt h content)) as Hparse.
    { unfold parse_data. by rewrite Hread. }
    split_and!.
    + intros e He. by rewrite Hparse, He.
    + intros cols data Hok. by rewrite Hparse, Hok.
    + intros e He. unfold json_attempt. by rewrite He.
    + intros v Hload. apply (json_attempt_decoded h content v Hload).
    + intros v Hload. apply (json_attempt_decoded h content v Hload).
    + intros e He. rewrite Hparse in He.
      destruct (json_attempt h content) as [[cols data]|e'] eqn:Hjson; [done|].
      split; [exact He | by exists e'].
  - intros source e Hread. unfold parse_data. by rewrite Hread.
  - apply run_main_returns.
  - intros c q cols data w' r. apply query_step_returns.
Qed.

Lemma json_failure_falls_back_witness :
  parse_data empty_host "-" = csv_attempt empty_host ""
  ∧ parse_data abc_host "-" = Return (Some ["a"; "b"; "c"], abc_rows).
Proof.
  split.
  - exact (proj1 (proj1 (json_failure_falls_back empty_host default_args (World [] []))
                    "-" "" eq_refl) JSONDecodeError eq_refl).
  - exact (proj1 (proj2 (proj1 (json_failure_falls_back abc_host default_args
                                  (World [] [])) "-" abc_text eq_refl))
             ["a"; "b"; "c"] abc_rows
             (json_attempt_records abc_host abc_text abc_rows eq_refl)).
Defined.

(** ** The life of the store (C9) *)

(** C9, what the code does. The store is opened when the query step begins.
    When building it fails, that is when [__enter__] raises (the column list
    is [None], or SQLite rejects the [CREATE TABLE] or the [INSERT]
    statement), the exception leaves the query step with the connection
    opened and never closed: [__exit__] is not called for a [with] block
    whose [__enter__] raised. *)
Theorem store_left_open_when_setup_fails h a cols data c q w w1 e :
  query a = Some (String c q) →
  run (TempDB.__enter__ h data cols) w = (w1, Raise e) →
  run (query_step h a cols data) w = (w1, Raise e)
  ∧ ∃ events, db_log w1 = db_log w ++ Connect :: events ∧ Close ∉ events.
Proof.
  intros Hq Henter. split.
  - by rewrite (run_query_step h a cols data c q w Hq), Henter.
  - by apply enter_log in Henter as [_ ?].
Qed.

Lemma store_left_open_when_setup_fails_witness :
  run (main no_rows_host select_1_args) (World [] [])
    = (World [] [Connect; Call (Execute (TempDB.create_table_statement []))],
       Raise SqliteError)
  ∧ run (query_step no_rows_host select_1_args (Some []) []) (World [] [])
    = (World [] [Connect; Call (Execute (TempDB.create_table_statement []))],
       Raise SqliteError)
  ∧ ∃ events,
      [Connect; Call (Execute (TempDB.create_table_statement []))]
      = [] ++ Connect :: events ∧ Close ∉ events.
Proof.
  split; [reflexivity|].
  exact (store_left_open_when_setup_fails no_rows_host select_1_args (Some []) []
           "S" "ELECT 1" (World [] [])
           (World [] [Connect; Call (Execute (TempDB.create_table_statement []))])
           SqliteError eq_refl eq_refl).
Defined.

(** * Further properties of the renderer *)

Section line_lengths.
Implicit Types (entries : list row) (fields : list (string * string)).

Lemma length_replace_char a b s :
  String.length (replace_char a b s) = String.length s.
Proof. induction s as [|c s IH]; simpl; [done | by rewrite IH]. Qed.

Lemma len_app s t : len (s +:+ t) = len s + len t.
Proof. unfold len. rewrite length_app. lia. Qed.

Lemma sum_nil : sum [] = 0.
Proof. reflexivity. Qed.

Lemma len_join sep (parts : list string) :
  parts ≠ [] →
  len (join sep parts)
  = sum (len <$> parts) + (Z.of_nat (length parts) - 1) * len sep.
Proof.
  induction parts as [|x [|y parts] IH]; [done | |]; intros _.
  - csimpl. rewrite sum_cons, sum_nil. lia.
  - change (join sep (x :: y :: parts)) with (x +:+ sep +:+ join sep (y :: parts)).
    rewrite !len_app, IH by done. csimpl. rewrite !sum_cons.
    change (length (y :: parts)) with (S (length parts)). lia.
Qed.

Lemma sum_fmap_ext {A} (f g : A → Z) (l : list A) :
  (∀ x, x ∈ l → f x = g x) → sum (f <$> l) = sum (g <$> l).
Proof.
  induction l as [|x l IH]; intros Hfg; csimpl; [done|].
  rewrite !sum_cons, IH, (Hfg x).
  - done.
  - apply elem_of_cons. by left.
  - intros y Hy. apply Hfg, elem_of_cons. by right.
Qed.

(** A line made of one cell per column is as long as the columns and the
    separators between them. *)
Lemma len_cells_line entries max_cols sep fields (cell : string → string → string) :
  fields ≠ [] →
  (∀ field label, (field, label) ∈ fields →
     len (cell field label) = column_width entries max_cols field label) →
  len (join sep ((λ '(field, label), cell field label) <$> fields))
  = sum (Dict.values (column_widths entries max_cols fields))
    + (Z.of_nat (length fields) - 1) * len sep.
Proof.
  intros Hne Hcell. rewrite len_join by (by destruct fields).
  rewrite length_fmap. f_equal.
  unfold Dict.values, column_widths. rewrite <- !list_fmap_compose.
  apply sum_fmap_ext. intros [field label] Hin. simpl. by apply Hcell.
Qed.

Lemma sum_le_bound (xs : list Z) (bound : Z) :
  Forall (λ x, x ≤ bound) xs → sum xs ≤ Z.of_nat (length xs) * bound.
Proof.
  induction 1 as [|x xs Hx _ IH]; [done|]. rewrite sum_cons.
  change (length (x :: xs)) with (S (length xs)). lia.
Qed.

(** The length of every line of a table that has a column. *)
Lemma len_table_line entries max_cols sep fields line :
  0 ≤ max_cols → fields ≠ [] →
  line ∈ table_lines entries max_cols sep fields →
  len line = table_width fields (column_widths entries max_cols fields) sep.
Proof.
  intros Hm Hne Hin. unfold table_lines in Hin.
  assert (0 ≤ table_width fields (column_widths entries max_cols fields) sep) as Hw.
  { unfold table_width.
    pose proof (sum_column_widths_nonneg entries max_cols fields Hm).
    pose proof (len_nonneg sep).
    assert (1 ≤ Z.of_nat (length fields)) by (destruct fields; [done | simpl; lia]).
    nia. }
  apply elem_of_cons in Hin as [->|Hin]; [|apply elem_of_cons in Hin as [->|Hin]].
  - unfold header_line, table_width.
    rewrite (len_cells_line entries max_cols _ fields (header_cell entries max_cols)).
    + unfold len. by rewrite length_replace_char.
    + done.
    + intros field label _. by apply len_header_cell.
  - unfold rule_line. rewrite len_str_mul. lia.
  - apply list_elem_of_fmap in Hin as (entry & -> & Hentry).
    unfold data_line, table_width.
    apply (len_cells_line entries max_cols sep fields (data_cell entries max_cols entry));
      [done|].
    intros field label _. by apply len_data_cell.
Qed.

Lemma table_lines_no_columns entries max_cols sep line :
  line ∈ table_lines entries max_cols sep [] → line = "".
Proof.
  unfold table_lines, header_line, rule_line, data_line, table_width, str_mul.
  simpl. pose proof (len_nonneg sep).
  replace (Z.to_nat _) with 0%nat by (unfold sum; simpl; lia).
  intros [->|Hin]%elem_of_cons; [done|].
  apply elem_of_cons in Hin as [->|Hin]; [done|].
  by apply list_elem_of_fmap in Hin as (entry & -> & _).
Qed.

Lemma from_pairs_idemp {V} (l : list (string * V)) :
  Dict.from_pairs (Dict.from_pairs l) = Dict.from_pairs l.
Proof. apply from_pairs_NoDup_id, from_pairs_NoDup. Qed.

Lemma print_table_run entries fields max_cols sep w :
  run (print_table entries fields max_cols sep) w =
  if decide (max_cols < 0 ∧ Dict.from_pairs fields ≠ []) then (w, Raise ValueError)
  else (printed w (table_lines entries max_cols sep (Dict.from_pairs fields)), Return ()).
Proof.
  case_decide as Hcase.
  - destruct Hcase. by apply print_table_err.
  - apply print_table_ok.
    destruct (decide (0 ≤ max_cols)); [by left | right].
    destruct (decide (Dict.from_pairs fields = [])); [done|].
    exfalso. apply Hcase. split; [lia | done].
Qed.
End line_lengths.

(** X1. A table [print_table] renders is a rectangle: after what was
    already printed it adds two lines and one line per row, all of the same
    length, the length of the rule line; the connection log is not
    touched. *)
Theorem table_is_rectangular entries fields max_cols sep w w' :
  plain_sep sep = true →
  run (print_table entries fields max_cols sep) w = (w', Return ()) →
  let ordered := Dict.from_pairs fields in
  ∃ lines,
    stdout w' = stdout w ++ lines
    ∧ db_log w' = db_log w
    ∧ length lines = (2 + length entries)%nat
    ∧ ∀ line, line ∈ lines →
        len line = Z.max 0 (table_width ordered (col_sizes_of entries ordered max_cols) sep).
Proof.
  intros _ Hrun ordered.
  apply print_table_returns in Hrun as [Hok ->]. fold ordered in Hok.
  exists (table_lines entries max_cols sep ordered).
  split_and!; [done | done | |].
  - unfold table_lines. simpl. by rewrite length_fmap.
  - intros line Hin. rewrite col_sizes_of_spec by apply from_pairs_NoDup.
    destruct (decide (ordered = [])) as [Hempty|Hne].
    + rewrite Hempty in *. rewrite (table_lines_no_columns _ _ _ _ Hin).
      unfold table_width. simpl. pose proof (len_nonneg sep).
      unfold sum, len at 1. simpl. lia.
    + assert (0 ≤ max_cols) as Hm by (by destruct Hok).
      rewrite (len_table_line entries max_cols sep ordered line Hm Hne Hin).
      unfold table_width.
      pose proof (sum_column_widths_nonneg entries max_cols ordered Hm).
      pose proof (len_nonneg sep).
      assert (1 ≤ Z.of_nat (length ordered)) by (destruct ordered; [done | simpl; lia]).
      nia.
Qed.

Lemma table_is_rectangular_witness :
  ∃ lines,
    [" x   | why "; "-----------"; "ab   |     "; "abcd |     "; "     | 5   "]
    = [] ++ lines
    ∧ length lines = 5%nat
    ∧ ∀ line, line ∈ lines → len line = 11.
Proof.
  destruct (table_is_rectangular
    [[("x", PyStr "ab")]; [("x", PyStr "abcdef"); ("y", PyNone)]; [("y", PyInt 5)]]
    [("x", "x"); ("y", "why")] 4 " | " (World [] [])
    (World [" x   | why "; "-----------"; "ab   |     "; "abcd |     "; "     | 5   "] [])
    eq_refl eq_refl) as (lines & Hout & _ & Hlen & Hall).
  exists lines. split_and!; [exact Hout | exact Hlen | exact Hall].
Defined.

(** X2. In a rendered table with at least one column no column is wider
    than [max_cols], and no line is longer than the number of columns times
    [max_cols] plus the separators between them. *)
Theorem table_lines_bounded entries fields max_cols sep w w' :
  plain_sep sep = true →
  run (print_table entries fields max_cols sep) w = (w', Return ()) →
  let ordered := Dict.from_pairs fields in
  ordered ≠ [] →
  (∀ field size,
     Dict.get (col_sizes_of entries ordered max_cols) field = Some size →
     0 ≤ size ≤ max_cols)
  ∧ ∃ lines,
      stdout w' = stdout w ++ lines
      ∧ ∀ line, line ∈ lines →
          len line ≤ Z.of_nat (length ordered) * max_cols
                     + (Z.of_nat (length ordered) - 1) * len sep.
Proof.
  intros _ Hrun ordered Hne.
  apply print_table_returns in Hrun as [Hok ->]. fold ordered in Hok.
  assert (0 ≤ max_cols) as Hm by (by destruct Hok).
  rewrite col_sizes_of_spec by apply from_pairs_NoDup.
  split.
  - intros field size. unfold column_widths.
    rewrite (get_fmap_value (λ f label, column_width entries max_cols f label)).
    destruct (Dict.get ordered field) as [label|]; [|done].
    intros [= <-]. split; [by apply column_width_nonneg | unfold column_width; lia].
  - exists (table_lines entries max_cols sep ordered). split; [done|].
    intros line Hin.
    rewrite (len_table_line entries max_cols sep ordered line Hm Hne Hin).
    unfold table_width.
    assert (sum (Dict.values (column_widths entries max_cols ordered))
            ≤ Z.of_nat (length ordered) * max_cols) as Hsum.
    { replace (length ordered)
        with (length (Dict.values (column_widths entries max_cols ordered)))
        by (unfold Dict.values, column_widths; by rewrite !length_fmap).
      apply sum_le_bound. unfold Dict.values, column_widths.
      apply Forall_fmap, Forall_fmap, Forall_forall. intros [f label] _. simpl.
      unfold column_width. lia. }
    lia.
Qed.

Lemma table_lines_bounded_witness :
  (∀ field size,
     Dict.get (col_sizes_of x_rows [("x", "x")] 4) field = Some size → 0 ≤ size ≤ 4)
  ∧ ∃ lines,
      [" x  "; "----"; "ab  "; "abcd"] = [] ++ lines
      ∧ ∀ line, line ∈ lines → len line ≤ 1 * 4 + (1 - 1) * 3.
Proof.
  exact (table_lines_bounded x_rows [("x", "x")] 4 " | " (World [] [])
           (World [" x  "; "----"; "ab  "; "abcd"] []) eq_refl eq_refl
           ltac:(discriminate)).
Defined.

Section repeated_fields.
Context {V : Type}.
Implicit Types (l d : list (string * V)).

Lemma get_app d1 d2 k :
  Dict.get (d1 ++ d2) k =
  match Dict.get d1 k with Some v => Some v | None => Dict.get d2 k end.
Proof.
  induction d1 as [|[k0 v0] d1 IH]; simpl; [done|].
  by destruct (decide (k = k0)).
Qed.

Lemma get_fold_set l acc k :
  Dict.get (fold_left (λ d kv, Dict.set d kv.1 kv.2) l acc) k =
  match Dict.get (reverse l) k with Some v => Some v | None => Dict.get acc k end.
Proof.
  revert acc. induction l as [|[k0 v0] l IH]; intros acc; simpl; [done|].
  rewrite IH, reverse_cons, get_app, get_set. simpl.
  destruct (Dict.get (reverse l) k); [done|]. by destruct (decide (k = k0)).
Qed.

(** Looking a key up in [dict(pairs)] gives the last value paired with it. *)
Lemma get_from_pairs l k : Dict.get (Dict.from_pairs l) k = Dict.get (reverse l) k.
Proof.
  unfold Dict.from_pairs. rewrite get_fold_set. by destruct (Dict.get (reverse l) k).
Qed.

Lemma keys_from_pairs l k : k ∈ Dict.keys (Dict.from_pairs l) ↔ k ∈ Dict.keys l.
Proof.
  assert (∀ d, k ∈ Dict.keys d ↔ Dict.get d k ≠ None) as Hin.
  { intros d. rewrite get_None. split; [tauto|]. apply dec_stable. }
  rewrite !Hin, get_from_pairs, <- !Hin.
  unfold Dict.keys. by rewrite fmap_reverse, elem_of_reverse.
Qed.
End repeated_fields.

(** X3. A field given more than once is one column: the ordered dictionary
    [print_table] makes has every name once, the names are those given, the
    label of a name is the last one given for it, and the table is the one
    rendered from that dictionary. *)
Theorem repeated_field_is_one_column entries fields max_cols sep w :
  plain_sep sep = true →
  let ordered := Dict.from_pairs fields in
  NoDup (Dict.keys ordered)
  ∧ (∀ field, field ∈ Dict.keys ordered ↔ field ∈ Dict.keys fields)
  ∧ (∀ field, Dict.get ordered field = Dict.get (reverse fields) field)
  ∧ run (print_table entries fields max_cols sep) w
    = run (print_table entries ordered max_cols sep) w.
Proof.
  intros _ ordered. split_and!.
  - apply from_pairs_NoDup.
  - apply keys_from_pairs.
  - apply get_from_pairs.
  - rewrite !print_table_run. unfold ordered. by rewrite from_pairs_idemp.
Qed.

Lemma repeated_field_is_one_column_witness :
  Dict.from_pairs [("a", "first"); ("b", "b"); ("a", "last")] = [("a", "last"); ("b", "b")]
  ∧ run (print_table [[("a", PyInt 1); ("b", PyInt 2)]]
           [("a", "first"); ("b", "b"); ("a", "last")] 100 " | ") (World [] [])
    = run (print_table [[("a", PyInt 1); ("b", PyInt 2)]]
             [("a", "last"); ("b", "b")] 100 " | ") (World [] []).
Proof.
  split; [reflexivity|].
  exact (proj2 (proj2 (proj2 (repeated_field_is_one_column
           [[("a", PyInt 1); ("b", PyInt 2)]]
           [("a", "first"); ("b", "b"); ("a", "last")] 100 " | " (World [] [])
           eq_refl)))).
Defined.

Section row_order.
Lemma widest_permutation (entries entries' : list row) field :
  entries ≡ₚ entries' → widest entries field = widest entries' field.
Proof.
  unfold widest. induction 1 as [|e l l' _ IH|e1 e2 l|l1 l2 l3 _ IH1 _ IH2]; csimpl; lia.
Qed.

Lemma column_width_permutation (entries entries' : list row) max_cols field label :
  entries ≡ₚ entries' →
  column_width entries max_cols field label = column_width entries' max_cols field label.
Proof. intros Hp. unfold column_width. by rewrite (widest_permutation _ _ _ Hp). Qed.

Lemma table_lines_permutation (entries entries' : list row) max_cols sep fields :
  entries ≡ₚ entries' →
  table_lines entries' max_cols sep fields
  = header_line entries max_cols sep fields
      :: rule_line entries max_cols sep fields
      :: (data_line entries max_cols sep fields <$> entries').
Proof.
  intros Hp.
  assert (∀ f l, column_width entries' max_cols f l = column_width entries max_cols f l)
    as Hw by (intros; symmetry; by apply column_width_permutation).
  unfold table_lines, header_line, rule_line, data_line, header_cell, data_cell,
    column_widths.
  f_equal; [|f_equal].
  - f_equal. apply list_fmap_ext. intros _ [f l] _. by rewrite Hw.
  - do 2 f_equal. apply list_fmap_ext. intros _ [f l] _. by rewrite Hw.
  - apply list_fmap_ext. intros _ entry _. f_equal.
    apply list_fmap_ext. intros _ [f l] _. by rewrite Hw.
Qed.
End row_order.

(** X4. The layout does not depend on the order of the rows: when the rows
    are given in another order, [print_table] prints the same header line
    and the same rule line, and the same line for each row, in the new
    order; it raises in the one case exactly when it raises in the other. *)
Theorem row_order_keeps_layout entries entries' fields max_cols sep w :
  plain_sep sep = true →
  entries ≡ₚ entries' →
  let ordered := Dict.from_pairs fields in
  (run (print_table entries' fields max_cols sep) w).2
    = (run (print_table entries fields max_cols sep) w).2
  ∧ ∀ w1, run (print_table entries fields max_cols sep) w = (w1, Return ()) →
      stdout w1 = stdout w ++ header_line entries max_cols sep ordered
                    :: rule_line entries max_cols sep ordered
                    :: (data_line entries max_cols sep ordered <$> entries)
      ∧ run (print_table entries' fields max_cols sep) w
        = (printed w (header_line entries max_cols sep ordered
                       :: rule_line entries max_cols sep ordered
                       :: (data_line entries max_cols sep ordered <$> entries')),
           Return ()).
Proof.
  intros _ Hp ordered. split.
  - by rewrite !print_table_outcome.
  - intros w1 Hrun. apply print_table_returns in Hrun as [Hok ->].
    split; [done|].
    rewrite print_table_ok by done. fold ordered.
    by rewrite (table_lines_permutation entries entries' _ _ _ Hp).
Qed.

Lemma row_order_keeps_layout_witness :
  run (print_table (reverse x_rows) [("x", "x")] 4 " | ") (World [] [])
  = (World [" x  "; "----"; "abcd"; "ab  "] [], Return ()).
Proof.
  exact (proj2 (proj2 (row_order_keeps_layout x_rows (reverse x_rows) [("x", "x")] 4 " | "
                         (World [] []) eq_refl (Permutation_swap _ _ []))
                  (World [" x  "; "----"; "ab  "; "abcd"] []) eq_refl)).
Defined.

(** * Further properties of cells, identifiers and rows *)

Section prefixes.
Lemma str_take_prefix n s : ∃ rest, s = str_take n s +:+ rest.
Proof.
  revert s. induction n as [|n IH]; intros [|c s]; simpl; try by eexists.
  destruct (IH s) as [rest Hrest]. exists rest. by rewrite app_cons, <- Hrest.
Qed.

Lemma len_slice_to_negative s m :
  m < 0 → len (slice_to s m) = Z.max 0 (len s + m).
Proof.
  intros Hm. unfold slice_to, len.
  destruct (Z.ltb_spec m 0); [|lia]. rewrite length_str_take. lia.
Qed.
End prefixes.

(** X5. The text [_extract_value] returns for a cell is the beginning of the
    text of the value (empty for a missing value and for [None]): its first
    [max_size] characters, the whole text when that is not longer, and, for a
    negative [max_size], the text without its last [-max_size]
    characters. *)
Theorem extract_value_is_prefix entry field max_size :
  let text := cell_text entry field in
  let value := _extract_value entry field max_size (PyStr "") in
  (∃ rest, text = value +:+ rest)
  ∧ len value = (if decide (0 ≤ max_size) then Z.min max_size (len text)
                 else Z.max 0 (len text + max_size))
  ∧ (len text ≤ max_size → value = text).
Proof.
  intros text value. unfold value. rewrite extract_value_cell_text. fold text.
  split_and!.
  - unfold slice_to. destruct (max_size <? 0); apply str_take_prefix.
  - case_decide; [by apply len_slice_to | apply len_slice_to_negative; lia].
  - intros Hfit. pose proof (len_nonneg text). unfold slice_to, len in *.
    destruct (Z.ltb_spec max_size 0); [lia|]. apply str_take_all. lia.
Qed.

Section escaping.
Lemma remove_char_clean a s : contains_char a (remove_char a s) = false.
Proof.
  induction s as [|c s IH]; simpl; [done|].
  destruct (char_eqb c a) eqn:Hc; simpl; [done|]. by rewrite Hc.
Qed.

Lemma remove_char_absent a s : contains_char a s = false → remove_char a s = s.
Proof.
  induction s as [|c s IH]; simpl; [done|].
  destruct (char_eqb c a); simpl; [done|]. intros Hs. by rewrite IH.
Qed.

Lemma length_remove_char a s : (String.length (remove_char a s) ≤ String.length s)%nat.
Proof.
  induction s as [|c s IH]; simpl; [done|]. destruct (char_eqb c a); simpl; lia.
Qed.
Lemma remove_char_filter a s :
  list_ascii_of_string (remove_char a s)
    = filter (λ c, c ≠ a) (list_ascii_of_string s).
Proof.
  induction s as [|c s IH]; simpl; [done|].
  destruct (char_eqb c a) eqn:Hc.
  - apply Stdlib.Strings.Ascii.eqb_eq in Hc as ->.
    rewrite filter_cons_False; [exact IH | by intros H].
  - apply Stdlib.Strings.Ascii.eqb_neq in Hc.
    rewrite filter_cons_True by done. simpl. by rewrite IH.
Qed.
End escaping.

(** X6. The identifier [_escape] makes of a column name is the name with
    every double quote removed, between two double quotes: the characters
    between the quotes are those of the name that are not a double quote, all
    of them and in the order of the name. So the text between the quotes
    holds no double quote, is the name itself when the name has none, and is
    never longer than the name; escaping it again gives the same
    identifier. *)
Theorem escape_strips_quotes (v : string) :
  ∃ inner,
    TempDB._escape v = String quote_mark (inner +:+ String quote_mark "")
    ∧ list_ascii_of_string inner
        = filter (λ c, c ≠ quote_mark) (list_ascii_of_string v)
    ∧ contains_char quote_mark inner = false
    ∧ (contains_char quote_mark v = false → inner = v)
    ∧ len inner ≤ len v
    ∧ TempDB._escape inner = TempDB._escape v.
Proof.
  exists (remove_char quote_mark v). split_and!.
  - reflexivity.
  - apply remove_char_filter.
  - apply remove_char_clean.
  - apply remove_char_absent.
  - pose proof (length_remove_char quote_mark v). unfold len. lia.
  - unfold TempDB._escape.
    by rewrite (remove_char_absent _ _ (remove_char_clean quote_mark v)).
Qed.

Section row_factory_facts.
Implicit Types (description : list string) (r : list pyval) (acc : row).

Let step (r : list pyval) :=
  λ (acc : result row) (ic : nat * string),
    let '(idx, col) := ic in
    d ← acc;
    match r !! idx with
    | Some v => Return (Dict.set d col v)
    | None => Raise IndexError
    end.

Lemma fold_step_raise r e (l : list (nat * string)) :
  fold_left (step r) l (Raise e) = Raise e.
Proof. induction l as [|[i c] l IH]; simpl; [done | exact IH]. Qed.

Lemma imap_shift description (n : nat) :
  imap ((λ idx col, ((n + idx)%nat, col)) ∘ S) description
  = imap (λ idx (col : string), ((S n + idx)%nat, col)) description.
Proof. apply imap_ext. intros i x _. simpl. f_equal. lia. Qed.

Lemma fold_step_enough description r (n : nat) acc :
  (n + length description ≤ length r)%nat →
  fold_left (step r) (imap (λ idx col, ((n + idx)%nat, col)) description) (Return acc)
  = Return (fold_left (λ d kv, Dict.set d kv.1 kv.2) (zip description (drop n r)) acc).
Proof.
  revert n acc. induction description as [|col description IH]; intros n acc Hlen;
    [done|].
  rewrite imap_cons, imap_shift. simpl in Hlen.
  destruct (lookup_lt_is_Some_2 r n ltac:(lia)) as [v Hv].
  rewrite (drop_S r v n Hv). simpl. rewrite Nat.add_0_r, Hv. simpl.
  exact (IH (S n) (Dict.set acc col v) ltac:(lia)).
Qed.

Lemma fold_step_short description r (n : nat) acc :
  description ≠ [] → (length r < n + length description)%nat →
  fold_left (step r) (imap (λ idx col, ((n + idx)%nat, col)) description) (Return acc)
  = Raise IndexError.
Proof.
  revert n acc. induction description as [|col description IH]; intros n acc Hne Hlen;
    [done|].
  rewrite imap_cons, imap_shift. simpl in *. rewrite Nat.add_0_r.
  destruct (r !! n) as [v|] eqn:Hv; simpl.
  - apply lookup_lt_Some in Hv.
    refine (IH (S n) (Dict.set acc col v) _ ltac:(lia)).
    destruct description; [simpl in *; lia | done].
  - apply fold_step_raise.
Qed.

Lemma row_factory_fold description r :
  TempDB.row_factory (Some description) r
  = fold_left (step r) (imap (λ idx col, ((0 + idx)%nat, col)) description) (Return []).
Proof. reflexivity. Qed.
End row_factory_facts.

(** X7. [row_factory] turns a fetched row into [dict(zip(names, row))],
    where the names are those of the cursor's description: when the names
    are distinct every name is a key, in the order of the description, and
    looking the i-th name up gives the i-th value of the row. A row shorter
    than the description raises [IndexError], and a cursor without
    description raises [TypeError]. *)
Theorem row_factory_is_zip (description : list string) (r : list pyval) :
  ((length description ≤ length r)%nat →
     TempDB.row_factory (Some description) r
     = Return (Dict.from_pairs (zip description r)))
  ∧ ((length description ≤ length r)%nat → NoDup description →
       ∃ d, TempDB.row_factory (Some description) r = Return d
            ∧ Dict.keys d = description
            ∧ ∀ i name v, description !! i = Some name → r !! i = Some v →
                Dict.get d name = Some v)
  ∧ ((length r < length description)%nat →
       TempDB.row_factory (Some description) r = Raise IndexError)
  ∧ TempDB.row_factory None r = Raise TypeError.
Proof.
  assert ((length description ≤ length r)%nat →
          TempDB.row_factory (Some description) r
          = Return (Dict.from_pairs (zip description r))) as Hzip.
  { intros Hlen. rewrite row_factory_fold, fold_step_enough by (simpl; lia). done. }
  split_and!; [done | | | done].
  - intros Hlen Hnd. exists (zip description r).
    assert (Dict.keys (zip description r) = description) as Hkeys
      by (apply fst_zip; lia).
    rewrite Hzip, from_pairs_NoDup_id by (done || by rewrite Hkeys).
    split_and!; [done | done |].
    intros i name v Hname Hv. apply get_elem_of; [by rewrite Hkeys|].
    apply list_elem_of_lookup. exists i.
    by rewrite lookup_zip_with, Hname, Hv.
  - intros Hlen. rewrite row_factory_fold. apply fold_step_short; [|simpl; lia].
    destruct description; [simpl in *; lia | done].
Qed.

(** * Further properties of the parser *)

Section dict_reader.
Lemma keys_zip_take {B} (names : list string) (vals : list B) :
  Dict.keys (zip names vals) = take (length vals) names.
Proof.
  unfold Dict.keys. revert vals.
  induction names as [|x names IH]; intros [|v vals]; csimpl; try done.
  by rewrite IH.
Qed.

Lemma fold_set_none (ks : list string) (d : row) :
  NoDup (Dict.keys d ++ ks) →
  fold_left (λ d key, Dict.set d key PyNone) ks d = d ++ ((λ k, (k, PyNone)) <$> ks).
Proof.
  revert d. induction ks as [|k ks IH]; intros d Hnd; csimpl.
  - by rewrite app_nil_r.
  - rewrite set_fresh.
    + rewrite IH.
      * by rewrite <- app_assoc.
      * unfold Dict.keys in *. rewrite fmap_app. csimpl.
        by rewrite <- app_assoc.
    + apply NoDup_app in Hnd as (_ & Hdisj & _). intros Hin.
      apply (Hdisj _ Hin), elem_of_cons. by left.
Qed.

(** A row of the reader in closed form: the names of the header paired with
    the fields of the record, padded with [None]. *)
Lemma DictReader_row_closed (fieldnames record : list string) :
  NoDup fieldnames →
  DictReader_row fieldnames record
  = zip fieldnames
      ((PyStr <$> record) ++ replicate (length fieldnames - length record) PyNone).
Proof.
  intros Hnd. unfold DictReader_row.
  set (vals := PyStr <$> record).
  assert (length vals = length record) as Hlen by apply length_fmap.
  assert (NoDup (take (length vals) fieldnames ++ drop (length record) fieldnames))
    as Hnd' by (by rewrite Hlen, take_drop).
  rewrite from_pairs_NoDup_id.
  2:{ rewrite keys_zip_take. by apply NoDup_app in Hnd' as (? & _ & _). }
  rewrite fold_set_none by (by rewrite keys_zip_take).
  rewrite (zip_with_app_r pair fieldnames vals), (zip_with_take_l pair fieldnames vals).
  rewrite Hlen. f_equal.
  rewrite (zip_with_replicate_r pair); [done|]. rewrite length_drop. lia.
Qed.
End dict_reader.

(** X8. For a text that is not read as JSON, whose first delimited record
    has distinct names and whose later records have no more fields than
    there are names, [parse_data] returns those names as the columns, in the
    order of the header, and one row for each later record that is not
    empty. A row pairs the names with the fields of its record, in order; a
    short record leaves the remaining names at [None]; so every row has
    exactly the names of the header as its keys. A record with more fields
    than names is left out: the reader files the surplus under the key
    [None], which a row keyed by names does not hold. *)
Theorem csv_rows_follow_header h source content e fieldnames rest :
  read_source h source = Return content →
  json_attempt h content = Raise e →
  csv_reader h content = Return (fieldnames :: rest) →
  NoDup fieldnames →
  Forall (λ record, (length record ≤ length fieldnames)%nat) rest →
  ∃ rows,
    parse_data h source = Return (Some fieldnames, rows)
    ∧ rows = (λ record,
                zip fieldnames
                  ((PyStr <$> record)
                     ++ replicate (length fieldnames - length record) PyNone))
               <$> filter (λ r, r ≠ []) rest
    ∧ ∀ row, row ∈ rows → Dict.keys row = fieldnames.
Proof.
  intros Hread Hjson Hcsv Hnd _. eexists. split_and!.
  - unfold parse_data. rewrite Hread. csimpl. rewrite Hjson. simpl.
    unfold csv_attempt. rewrite Hcsv. reflexivity.
  - apply list_fmap_ext. intros _ record _. by apply DictReader_row_closed.
  - intros row (record & -> & _)%list_elem_of_fmap.
    rewrite DictReader_row_closed by done. apply fst_zip.
    rewrite List.length_app, length_fmap, length_replicate. lia.
Qed.

Lemma csv_rows_follow_header_witness :
  ∃ rows,
    parse_data people_host "-" = Return (Some ["name"; "age"], rows)
    ∧ rows = [[("name", PyStr "Ann"); ("age", PyStr "30")];
              [("name", PyStr "Bob"); ("age", PyNone)]]
    ∧ ∀ row, row ∈ rows → Dict.keys row = ["name"; "age"].
Proof.
  refine (csv_rows_follow_header people_host "-" people_text JSONDecodeError
            ["name"; "age"] [["Ann"; "30"]; []; ["Bob"]]
            eq_refl eq_refl eq_refl _ _).
  - apply NoDup_cons. split.
    + intros Hin. apply list_elem_of_singleton in Hin. discriminate.
    + apply NoDup_singleton.
  - repeat apply Forall_cons_2; [simpl; lia ..|]. apply Forall_nil_2.
Defined.

(** * Further properties of the query step and of [main] *)

Section query_runs.
Lemma query_step_stdout h a cols data w w1 r :
  run (query_step h a cols data) w = (w1, r) → stdout w1 = stdout w.
Proof.
  destruct (query a) as [[|c q]|] eqn:Hq.
  - unfold query_step. rewrite Hq. by intros [= <- _].
  - rewrite (run_query_step h a cols data c q w Hq).
    destruct (run (TempDB.__enter__ h data cols) w) as [we [[]|e]] eqn:Henter;
      apply enter_log in Henter as [Hout _].
    + unfold TempDB.query. simpl.
      destruct (sqlite_run h (db_log we) (Execute (String c q))) as [cur|e]; simpl;
        [|by intros [= <- _]].
      destruct (comprehension _ _) as [rows|e]; simpl; [|by intros [= <- _]].
      destruct (columns_iter (description cur)) as [names|e]; simpl;
        by intros [= <- _].
    + by intros [= <- _].
  - unfold query_step. rewrite Hq. by intros [= <- _].
Qed.

Lemma query_step_without_query h a cols data w :
  query a = None ∨ query a = Some "" →
  run (query_step h a cols data) w = (w, Return (cols, data)).
Proof. unfold query_step. by intros [-> | ->]. Qed.

Lemma run_render a cols data w :
  run (render a cols data) w =
  match cols with
  | Some names =>
      run (print_table data ((λ col, (col, col)) <$> names) (max_cols a) " | ") w
  | None => (w, Raise TypeError)
  end.
Proof. by destruct cols. Qed.

Lemma run_main h a w :
  run (main h a) w =
  match parse_data h (data_source a) with
  | Raise e => (w, Raise e)
  | Return (cols, data) =>
      match run (query_step h a (select_columns a cols) data) w with
      | (w1, Raise e) => (w1, Raise e)
      | (w1, Return (cols', data')) => run (render a cols' data') w1
      end
  end.
Proof.
  unfold main. destruct (parse_data h (data_source a)) as [[cols data]|e]; [|done].
  rewrite run_lift_bind, run_bind.
  by destruct (run (query_step h a (select_columns a cols) data) w) as [w1 [[]|]].
Qed.
End query_runs.

(** X9. A query step whose three statements SQLite accepts puts exactly
    these to the connection, in this order: the [CREATE TABLE] statement of
    the columns, one [INSERT] for all rows with one parameter per column
    ([None] where a row has no such field), and the user's statement as it
    was given; each of the first two is committed and the connection is
    closed at the end. Nothing is printed, and the step returns the columns
    of the cursor and its rows, not the columns and rows it was given. *)
Theorem query_step_runs_three_statements
    h a names data c q w cur1 cur2 cur result_names result_rows :
  query a = Some (String c q) →
  let create := Execute (TempDB.create_table_statement names) in
  let insert :=
    ExecuteMany (TempDB.insert_statement names)
      ((λ row, (λ name, Dict.get_or row name PyNone) <$> names) <$> data) in
  sqlite_run h (db_log w ++ [Connect]) create = Return cur1 →
  sqlite_run h (db_log w ++ [Connect; Call create; Commit]) insert = Return cur2 →
  sqlite_run h (db_log w ++ [Connect; Call create; Commit; Call insert; Commit])
    (Execute (String c q)) = Return cur →
  description cur = Some result_names →
  comprehension (TempDB.row_factory (Some result_names)) (fetched cur)
    = Return result_rows →
  run (query_step h a (Some names) data) w
  = ({| stdout := stdout w;
        db_log := db_log w ++ [Connect; Call create; Commit; Call insert; Commit;
                               Call (Execute (String c q)); Close] |},
     Return (Some result_names, result_rows)).
Proof.
  intros Hq create insert H1 H2 H3 Hdesc Hrows.
  rewrite (run_query_step h a (Some names) data c q w Hq).
  unfold TempDB.__enter__, TempDB._make_table, TempDB._insert_data, TempDB.query.
  simpl. fold create. rewrite H1. simpl. fold insert.
  rewrite <- !app_assoc. simpl. rewrite H2. simpl.
  rewrite <- !app_assoc. simpl. rewrite H3. simpl.
  rewrite Hdesc, Hrows. simpl. by rewrite <- !app_assoc.
Qed.

Lemma query_step_runs_three_statements_witness :
  run (main ids_host count_args) (World [] [])
  = (World ["n"; "-"; "2"]
       [Connect; Call (Execute (TempDB.create_table_statement ["id"])); Commit;
        Call (ExecuteMany (TempDB.insert_statement ["id"]) [[PyStr "1"]; [PyStr "2"]]);
        Commit; Call (Execute count_query); Close],
     Return ())
  ∧ run (query_step ids_host count_args (Some ["id"])
           [[("id", PyStr "1")]; [("id", PyStr "2")]]) (World [] [])
    = (World []
         [Connect; Call (Execute (TempDB.create_table_statement ["id"])); Commit;
          Call (ExecuteMany (TempDB.insert_statement ["id"]) [[PyStr "1"]; [PyStr "2"]]);
          Commit; Call (Execute count_query); Close],
       Return (Some ["n"], [[("n", PyInt 2)]])).
Proof.
  split; [reflexivity|].
  exact (query_step_runs_three_statements ids_host count_args ["id"]
           [[("id", PyStr "1")]; [("id", PyStr "2")]]
           "S" "ELECT count(id) AS n FROM data" (World [] [])
           (CursorResult None []) (CursorResult None [])
           (CursorResult (Some ["n"]) [[PyInt 2]]) ["n"] [[("n", PyInt 2)]]
           eq_refl eq_refl eq_refl eq_refl eq_refl eq_refl).
Defined.

(** X10. A statement that has no result set (the cursor has no description
    and no row) makes the query step raise [TypeError] after the statement
    was executed; the connection is closed all the same and nothing is
    printed. *)
Theorem query_without_result_raises h a cols data c q w w1 cur :
  query a = Some (String c q) →
  run (TempDB.__enter__ h data cols) w = (w1, Return ()) →
  sqlite_run h (db_log w1) (Execute (String c q)) = Return cur →
  description cur = None → fetched cur = [] →
  run (query_step h a cols data) w
  = ({| stdout := stdout w;
        db_log := db_log w1 ++ [Call (Execute (String c q)); Close] |},
     Raise TypeError).
Proof.
  intros Hq Henter Hrun Hdesc Hrows.
  rewrite (run_query_step h a cols data c q w Hq), Henter.
  apply enter_log in Henter as [Hout _].
  unfold TempDB.query. simpl. rewrite Hrun. simpl. rewrite Hdesc, Hrows. simpl.
  by rewrite <- app_assoc, Hout.
Qed.

Lemma query_without_result_raises_witness :
  run (main ids_host delete_args) (World [] [])
  = (World []
       [Connect; Call (Execute (TempDB.create_table_statement ["id"])); Commit;
        Call (ExecuteMany (TempDB.insert_statement ["id"]) [[PyStr "1"]; [PyStr "2"]]);
        Commit; Call (Execute "DELETE FROM data"); Close],
     Raise TypeError)
  ∧ run (query_step ids_host delete_args (Some ["id"])
           [[("id", PyStr "1")]; [("id", PyStr "2")]]) (World [] [])
    = (World []
         [Connect; Call (Execute (TempDB.create_table_statement ["id"])); Commit;
          Call (ExecuteMany (TempDB.insert_statement ["id"]) [[PyStr "1"]; [PyStr "2"]]);
          Commit; Call (Execute "DELETE FROM data"); Close],
       Raise TypeError).
Proof.
  split; [reflexivity|].
  exact (query_without_result_raises ids_host delete_args (Some ["id"])
           [[("id", PyStr "1")]; [("id", PyStr "2")]] "D" "ELETE FROM data"
           (World [] [])
           (World []
              [Connect; Call (Execute (TempDB.create_table_statement ["id"])); Commit;
               Call (ExecuteMany (TempDB.insert_statement ["id"])
                       [[PyStr "1"]; [PyStr "2"]]);
               Commit])
           (CursorResult None []) eq_refl eq_refl eq_refl eq_refl eq_refl).
Defined.

Section main_steps.
Lemma from_pairs_nonempty {V} (l : list (string * V)) :
  l ≠ [] → Dict.from_pairs l ≠ [].
Proof.
  destruct l as [|[k v] l]; [done|]. intros _ Hempty.
  assert (k ∈ Dict.keys (Dict.from_pairs ((k, v) :: l))) as Hin.
  { apply keys_from_pairs. apply elem_of_cons. by left. }
  rewrite Hempty in Hin. by apply elem_of_nil in Hin.
Qed.
End main_steps.

(** X11. The three steps of [main] in turn. An error of [parse_data] is the
    error of [main], and nothing else has happened then. The query step
    prints nothing; an error of it is the error of [main]. A column list
    that is [None] after the query step makes [main] raise [TypeError], and
    a negative [--max-cols] with at least one column makes it raise
    [ValueError], both before it prints anything. Otherwise [main] goes on
    as [print_table] does on the columns and rows the query step returned,
    each column labelled with its own name and the separator the default
    one: when [main] returns, standard output has grown by the header line,
    the rule line and one line per row of exactly that table, and the table
    has not touched the connection. *)
Theorem main_prints_the_table_of_the_query_step h a w :
  (∀ e, parse_data h (data_source a) = Raise e → run (main h a) w = (w, Raise e))
  ∧ ∀ cols data w1 r,
      parse_data h (data_source a) = Return (cols, data) →
      run (query_step h a (select_columns a cols) data) w = (w1, r) →
      stdout w1 = stdout w
      ∧ match r with
        | Raise e => run (main h a) w = (w1, Raise e)
        | Return (None, _) => run (main h a) w = (w1, Raise TypeError)
        | Return (Some names, rows) =>
            let fields := (λ col, (col, col)) <$> names in
            run (main h a) w = run (print_table rows fields (max_cols a) " | ") w1
            ∧ (max_cols a < 0 → names ≠ [] →
                 run (main h a) w = (w1, Raise ValueError))
            ∧ ∀ w', run (main h a) w = (w', Return ()) →
                stdout w' = stdout w ++ table_lines rows (max_cols a) " | "
                                          (Dict.from_pairs fields)
                ∧ db_log w' = db_log w1
        end.
Proof.
  split.
  - intros e He. by rewrite run_main, He.
  - intros cols data w1 r Hparse Hstep.
    pose proof (query_step_stdout _ _ _ _ _ _ _ Hstep) as Hout.
    split; [done|].
    destruct r as [[[names|] rows]|e]; [| by rewrite run_main, Hparse, Hstep ..].
    assert (run (main h a) w
            = run (print_table rows ((λ col, (col, col)) <$> names) (max_cols a) " | ")
                w1) as Hmain
      by (by rewrite run_main, Hparse, Hstep, run_render).
    cbv zeta. split_and!; [done | |].
    + intros Hm Hne. rewrite Hmain. apply print_table_err; [done|].
      apply from_pairs_nonempty. by destruct names.
    + intros w' Hret. rewrite Hmain in Hret.
      apply print_table_returns in Hret as [_ ->]. simpl. by rewrite Hout.
Qed.

Lemma main_prints_the_table_of_the_query_step_witness :
  run (main empty_host default_args) (World [] []) = (World [] [], Raise TypeError)
  ∧ run (main ab_host
           {| data_source := "-"; max_cols := -1; only_columns := None;
              query := None |}) (World [] [])
    = (World [] [], Raise ValueError)
  ∧ stdout (World ["a | b"; "-----"; "1 | 2"] [])
    = stdout (World [] [])
        ++ table_lines [[("a", PyStr "1"); ("b", PyStr "2")]] 100 " | "
             (Dict.from_pairs [("a", "a"); ("b", "b")]).
Proof.
  split_and!.
  - exact (proj2 (proj2 (main_prints_the_table_of_the_query_step
                           empty_host default_args (World [] []))
                    None [] (World [] []) (Return (None, [])) eq_refl eq_refl)).
  - refine (proj1 (proj2 (proj2 (proj2
              (main_prints_the_table_of_the_query_step ab_host
                 {| data_source := "-"; max_cols := -1; only_columns := None;
                    query := None |} (World [] []))
              (Some ["a"; "b"]) [[("a", PyStr "1"); ("b", PyStr "2")]] (World [] [])
              (Return (Some ["a"; "b"], [[("a", PyStr "1"); ("b", PyStr "2")]]))
              eq_refl eq_refl))) _ _); [reflexivity | discriminate].
  - exact (proj1 (proj2 (proj2 (proj2 (proj2
              (main_prints_the_table_of_the_query_step ab_host default_args
                 (World [] []))
              (Some ["a"; "b"]) [[("a", PyStr "1"); ("b", PyStr "2")]] (World [] [])
              (Return (Some ["a"; "b"], [[("a", PyStr "1"); ("b", PyStr "2")]]))
              eq_refl eq_refl)))
            (World ["a | b"; "-----"; "1 | 2"] []) eq_refl)).
Defined.

(** X12. Without a query ([--query] absent or empty) [main] never opens a
    connection: whatever it returns or raises, the connection log is as it
    was. *)
Theorem main_without_query_opens_nothing h a w w' r :
  query a = None ∨ query a = Some "" →
  run (main h a) w = (w', r) →
  db_log w' = db_log w.
Proof.
  intros Hq. rewrite run_main.
  destruct (parse_data h (data_source a)) as [[cols data]|e]; [|by intros [= <- _]].
  rewrite query_step_without_query by done.
  rewrite run_render. destruct (select_columns a cols) as [names|];
    [|by intros [= <- _]].
  rewrite print_table_run. by case_decide; intros [= <- _].
Qed.

Lemma main_without_query_opens_nothing_witness :
  db_log (World ["a | b"; "-----"; "1 | 2"] []) = db_log (World [] []).
Proof.
  exact (main_without_query_opens_nothing ab_host default_args (World [] [])
           (World ["a | b"; "-----"; "1 | 2"] []) (Return ())
           (or_introl eq_refl) eq_refl).
Defined.

(** X13. Giving [--only-columns] the very columns that were detected
    changes nothing: [main] behaves as it does without the option. *)
Theorem only_detected_columns_is_no_change h a cols data w :
  parse_data h (data_source a) = Return (Some cols, data) →
  only_columns a = Some cols →
  run (main h a) w = run (main h (without_only_columns a)) w.
Proof.
  intros Hparse Honly. rewrite !run_main. simpl. rewrite Hparse.
  assert (select_columns a (Some cols) = Some cols) as ->.
  { unfold select_columns. rewrite Honly. by destruct cols. }
  assert (∀ cs d, query_step h (without_only_columns a) cs d = query_step h a cs d)
    as -> by done.
  done.
Qed.

Lemma only_detected_columns_is_no_change_witness :
  run (main ab_host
         {| data_source := "-"; max_cols := 100; only_columns := Some ["a"; "b"];
            query := None |}) (World [] [])
  = run (main ab_host default_args) (World [] []).
Proof.
  exact (only_detected_columns_is_no_change ab_host
           {| data_source := "-"; max_cols := 100; only_columns := Some ["a"; "b"];
              query := None |}
           ["a"; "b"] [[("a", PyStr "1"); ("b", PyStr "2")]] (World [] [])
           eq_refl eq_refl).
Defined.

Section store_events.
Lemma enter_events h data cols w w1 r :
  run (TempDB.__enter__ h data cols) w = (w1, r) →
  ∃ events,
    db_log w1 = db_log w ++ Connect :: events
    ∧ (Connect ∉ events) ∧ (Close ∉ events).
Proof.
  unfold TempDB.__enter__, TempDB._make_table, TempDB._insert_data.
  destruct cols as [columns|]; simpl;
    repeat (match goal with
            | |- context [sqlite_run ?h ?l ?call] =>
                destruct (sqlite_run h l call) as [?cur|?e]; simpl
            end);
    intros [= <- <-]; simpl; rewrite <- ?app_assoc; simpl;
    (eexists; split; [reflexivity|]);
    split; intros Hin;
    repeat (apply elem_of_cons in Hin as [Hin|Hin]; [discriminate|]);
    by apply elem_of_nil in Hin.
Qed.
End store_events.

(** X14. The connection of a query step is opened once, at the beginning,
    and closed exactly when the store was built: building the store logs
    [Connect] and then neither another [Connect] nor a [Close]. When
    building it raises, the step ends there with that error and the
    connection is left as it is, not closed. When it returns, the step puts
    the user's statement to the connection and closes it as the last event,
    whether the query returned or raised, and the outcome of the step is
    the outcome of the query: its columns and rows, or its error raised
    again after the close. *)
Theorem store_opened_once_closed_last h a cols data c q w w1 r1 :
  query a = Some (String c q) →
  run (TempDB.__enter__ h data cols) w = (w1, r1) →
  (∃ events,
     db_log w1 = db_log w ++ Connect :: events
     ∧ (Connect ∉ events) ∧ (Close ∉ events))
  ∧ run (query_step h a cols data) w =
    match r1 with
    | Raise e => (w1, Raise e)
    | Return _ =>
        ({| stdout := stdout w;
            db_log := db_log w1 ++ [Call (Execute (String c q)); Close] |},
         cur ← sqlite_run h (db_log w1) (Execute (String c q));
         rows ← comprehension (TempDB.row_factory (description cur)) (fetched cur);
         names ← columns_iter (description cur);
         Return (Some names, rows))
    end.
Proof.
  intros Hq Henter. split; [by eapply enter_events|].
  rewrite (run_query_step h a cols data c q w Hq), Henter.
  apply enter_log in Henter as [Hout _].
  destruct r1 as [[]|e]; [|done].
  unfold TempDB.query. simpl.
  destruct (sqlite_run h (db_log w1) (Execute (String c q))) as [cur|e]; simpl;
    [|by rewrite <- app_assoc, Hout].
  destruct (comprehension _ _) as [rows|e]; simpl;
    [|by rewrite <- app_assoc, Hout].
  destruct (columns_iter (description cur)) as [names|e]; simpl;
    by rewrite <- app_assoc, Hout.
Qed.

Lemma store_opened_once_closed_last_witness :
  run (query_step refusing_host refused_args (Some ["id"])
         [[("id", PyStr "1")]; [("id", PyStr "2")]]) (World [] [])
    = (World []
         [Connect; Call (Execute (TempDB.create_table_statement ["id"])); Commit;
          Call (ExecuteMany (TempDB.insert_statement ["id"]) [[PyStr "1"]; [PyStr "2"]]);
          Commit; Call (Execute "SELEKT 1"); Close],
       Raise SqliteError)
  ∧ run (query_step ids_host count_args (Some ["id"])
           [[("id", PyStr "1")]; [("id", PyStr "2")]]) (World [] [])
    = (World []
         [Connect; Call (Execute (TempDB.create_table_statement ["id"])); Commit;
          Call (ExecuteMany (TempDB.insert_statement ["id"]) [[PyStr "1"]; [PyStr "2"]]);
          Commit; Call (Execute count_query); Close],
       Return (Some ["n"], [[("n", PyInt 2)]]))
  ∧ run (query_step no_rows_host select_1_args (Some []) []) (World [] [])
    = (World [] [Connect; Call (Execute (TempDB.create_table_statement []))],
       Raise SqliteError).
Proof.
  split_and!.
  - exact (proj2 (store_opened_once_closed_last refusing_host refused_args
                    (Some ["id"]) [[("id", PyStr "1")]; [("id", PyStr "2")]]
                    "S" "ELEKT 1" (World [] [])
                    (World []
                       [Connect; Call (Execute (TempDB.create_table_statement ["id"]));
                        Commit;
                        Call (ExecuteMany (TempDB.insert_statement ["id"])
                                [[PyStr "1"]; [PyStr "2"]]);
                        Commit])
                    (Return ()) eq_refl eq_refl)).
  - exact (proj2 (store_opened_once_closed_last ids_host count_args
                    (Some ["id"]) [[("id", PyStr "1")]; [("id", PyStr "2")]]
                    "S" "ELECT count(id) AS n FROM data" (World [] [])
                    (World []
                       [Connect; Call (Execute (TempDB.create_table_statement ["id"]));
                        Commit;
                        Call (ExecuteMany (TempDB.insert_statement ["id"])
                                [[PyStr "1"]; [PyStr "2"]]);
                        Commit])
                    (Return ()) eq_refl eq_refl)).
  - exact (proj2 (store_opened_once_closed_last no_rows_host select_1_args
                    (Some []) [] "S" "ELECT 1" (World [] [])
                    (World [] [Connect; Call (Execute (TempDB.create_table_statement []))])
                    (Raise SqliteError) eq_refl eq_refl)).
Defined.

(** X15. [parse_data] returns [None] for the column list only together with
    no row at all, and only when the delimited reading found no record;
    whenever the JSON attempt returns, the column list is a list. *)
Theorem no_columns_means_no_rows h source data :
  parse_data h source = Return (None, data) →
  data = []
  ∧ ∃ content e,
      read_source h source = Return content
      ∧ json_attempt h content = Raise e
      ∧ csv_reader h content = Return [].
Proof.
  unfold parse_data.
  destruct (read_source h source) as [content|e] eqn:Hread; csimpl; [|done].
  destruct (json_attempt h content) as [[cols rows]|e] eqn:Hjson; simpl; [done|].
  unfold csv_attempt.
  destruct (csv_reader h content) as [[|fieldnames rest]|e'] eqn:Hcsv; simpl;
    [|done..].
  intros [= <-]. split; [done|]. by exists content, e.
Qed.

Lemma no_columns_means_no_rows_witness :
  @nil row = []
  ∧ ∃ content e,
      read_source empty_host "-" = Return content
      ∧ json_attempt empty_host content = Raise e
      ∧ csv_reader empty_host content = Return [].
Proof. exact (no_columns_means_no_rows empty_host "-" [] eq_refl). Defined.

Section header_errors.
End header_errors.


